(** * Product-list page and color swatches of the Algolia storefront overrides

  A shallow embedding of
  - [sortColorVariations] and the swatch rendering of
    [overrides/app/pages/algolia-product-list/partials/algolia-product-colors.jsx]
    and [.../algolia-product-swatch.jsx] (the function is textually the same
    in both files), and
  - the [ProductList] component of
    [overrides/app/pages/product-list/index.jsx]: its render body, its
    wishlist handlers and the events that drive them.

  JavaScript values are modelled by the types the code relies on:
  [undefined]/[null] as [None], arrays as lists, plain objects used as
  dictionaries as [gmap]s, thrown exceptions as an explicit error result. *)

From stdpp Require Import base strings list gmap pretty.

Set Default Proof Using "Type".

(* ===================================================================== *)
(** * Part I: the embedding                                              *)
(* ===================================================================== *)

(** ** JavaScript fragments used by the components *)
Module JS.

(** What a [throw] carries. [TypeError] is what reading a property of
    [undefined] raises; [Rejection] is the error a failed mutation promise
    rejects with. *)
Inductive Thrown := TypeError | Rejection.

(** The result of evaluating code that may throw. *)
Inductive Completion (A : Type) :=
| Normal (a : A)
| Throw (e : Thrown).
Arguments Normal {A} a.
Arguments Throw {A} e.

(** [!!s] for a value that is a string, [null] or [undefined]. *)
Definition truthy (s : option string) : bool :=
  match s with
  | Some s => bool_decide (s ≠ "")
  | None => false
  end.

(** [`${s}`] for a value that is a string or [undefined]. *)
Definition template (s : option string) : string := default "undefined" s.

(** [Array.prototype.find]: the first element satisfying the predicate,
    [undefined] when there is none. *)
Definition find {A} (P : A → Prop) `{!∀ x, Decision (P x)} (l : list A) : option A :=
  snd <$> list_find P l.

(** [Array.prototype.map] with a callback that may throw: the first throw
    aborts the traversal. *)
Fixpoint map {A B} (f : A → Completion B) (l : list A) : Completion (list B) :=
  match l with
  | [] => Normal []
  | x :: l =>
      match f x with
      | Throw e => Throw e
      | Normal y =>
          match map f l with
          | Throw e => Throw e
          | Normal ys => Normal (y :: ys)
          end
      end
  end.

End JS.

(** ** Color swatches (algolia-product-colors.jsx, algolia-product-swatch.jsx) *)
Module Swatch.

Record Image := { dis_base_link : string }.

Global Instance Image_eq_dec : EqDecision Image.
Proof. solve_decision. Defined.

(** An entry of [variant.image_groups]. *)
Record ImageGroup := {
  view_type : string;
  images : list Image
}.

Global Instance ImageGroup_eq_dec : EqDecision ImageGroup.
Proof. solve_decision. Defined.

(** An entry of [product.colorVariations]; [image_groups] may be missing. *)
Record Variant := {
  color : string;
  colorCode : string;
  image_groups : option (list ImageGroup)
}.

Global Instance Variant_eq_dec : EqDecision Variant.
Proof. solve_decision. Defined.

(** The fields of the hit that the swatch components read. *)
Record Product := {
  masterID : string;
  product_color : string;                     (* product.color *)
  colorVariations : option (list Variant)
}.

(** [sortColorVariations]: an absent array gives [[]]; otherwise the result
    of [find] (possibly [undefined]) followed by the variants of the other
    colors. *)
Definition sortColorVariations (product : Product)
    (colorVariations : option (list Variant)) : list (option Variant) :=
  match colorVariations with
  | None => []
  | Some colorVariations =>
      let productColor :=
        JS.find (λ c, color c = product_color product) colorVariations in
      let otherColors :=
        filter (λ c, color c ≠ product_color product) colorVariations in
      productColor :: (Some <$> otherColors)
  end.

(** One swatch of [AlgoliaProductColors]: the [color] parameter of its link
    ([linkBuilder] reads [variant.colorCode], after the callback read
    [variant.color]). Reading a property of an [undefined] array element
    throws. *)
Definition renderSwatch (variant : option Variant) : JS.Completion string :=
  match variant with
  | None => JS.Throw JS.TypeError
  | Some variant => JS.Normal (colorCode variant)
  end.

(** The body of [AlgoliaProductColors] (algolia-product-colors.jsx):
    [useState(sortColorVariations(colorVariations))] followed by
    [colorVariations && colorVariations.length && sorted.map(...)]. The
    component of algolia-product-swatch.jsx, which also looks up an image
    for every swatch, is [SwatchImages.renderImageSwatches]. *)
Definition render (product : Product) : JS.Completion (list string) :=
  let sortedColorVariations :=
    sortColorVariations product (colorVariations product) in
  match colorVariations product with
  | None | Some [] => JS.Normal []
  | Some _ => JS.map renderSwatch sortedColorVariations
  end.

End Swatch.

(** ** The product-list page (product-list/index.jsx) *)
Module ProductListPage.

(** *** Data read by the component *)

(** A value of the search-parameter object returned by [useSearchParams]:
    numbers ([limit], [offset]), strings ([q], [sort]) and arrays of strings
    ([refine], [_refine]). *)
Inductive ParamValue :=
| PNum (n : Z)
| PStr (s : string)
| PList (l : list string).

Global Instance ParamValue_eq_dec : EqDecision ParamValue.
Proof. solve_decision. Defined.

Abbreviation SearchParams := (gmap string ParamValue).

(** A hit handed to [hitComponent]. *)
Record Hit := {
  id : string;
  productId : string
}.

(** An entry of [productSearchResult.refinements]. *)
Record Refinement := {
  attributeId : string;
  label : string
}.

Global Instance Refinement_eq_dec : EqDecision Refinement.
Proof. solve_decision. Defined.

Record ProductSearchResult := {
  refinements : option (list Refinement);
  total : Z
}.

(** What [useProductSearch] returns. *)
Record ProductSearch := {
  isLoading : bool;
  isRefetching : bool;
  productSearchResult : option ProductSearchResult      (* data *)
}.

Record Category := {
  category_id : option string;                          (* category.id *)
  pageTitle : string
}.

Record HttpResponse := { status : Z }.

(** The error of a failed category lookup; [response] is absent when the
    request never got an answer. *)
Record ResponseError := { response : option HttpResponse }.

(** What [useCategory] returns. *)
Record CategoryQuery := {
  error : option ResponseError;
  category : option Category                            (* data *)
}.

(** The server response of [useServerContext]: present on the server,
    [undefined] in the browser. The header table is keyed by lower-cased
    field names, as Node keeps it. *)
Record ServerResponse := {
  statusCode : Z;
  headers : gmap string string
}.

Record WishlistItem := {
  item_id : string;                                     (* i.id *)
  item_productId : string                               (* i.productId *)
}.

(** The wishlist of [useWishList]; an empty list comes without
    [customerProductListItems]. *)
Record Wishlist := {
  wishlist_id : string;
  customerProductListItems : option (list WishlistItem)
}.

(** *** Server response *)

Definition toLowerCase_ascii (c : Ascii.ascii) : Ascii.ascii :=
  let n := Ascii.N_of_ascii c in
  if ((65 <=? n) && (n <=? 90))%N then Ascii.ascii_of_N (n + 32) else c.

Fixpoint toLowerCase (s : string) : string :=
  match s with
  | EmptyString => EmptyString
  | String c s => String (toLowerCase_ascii c) (toLowerCase s)
  end.

(** [res.set(field, value)]. *)
Definition res_set (field value : string) (res : ServerResponse) : ServerResponse :=
  {| statusCode := statusCode res;
     headers := <[toLowerCase field := value]> (headers res) |}.

(** *** Render body *)

Definition REFINEMENT_DISALLOW_LIST : list string := ["c_isNew"].

(** [!!searchQuery] where [searchQuery = urlParams.get('q')]. *)
Definition isSearch (searchQuery : option string) : bool := JS.truthy searchQuery.

(** The [enabled] option passed to [useCategory]. *)
Definition categoryLookupEnabled (searchQuery categoryId : option string) : bool :=
  negb (isSearch searchQuery) && JS.truthy categoryId.

(** "Apply disallow list to refinements." *)
Definition applyDisallowList (result : option ProductSearchResult)
    : option ProductSearchResult :=
  match result with
  | Some r =>
      match refinements r with
      | Some rs =>
          Some {| refinements :=
                    Some (filter (λ x, attributeId x ∉ REFINEMENT_DISALLOW_LIST) rs);
                  total := total r |}
      | None => Some r
      end
  | None => None
  end.

(** The typed failures of pwa-kit's [ssr/universal/errors], with their
    message. *)
Inductive Failure :=
| HTTPNotFound (message : string)
| HTTPError (message : string).

(** [error?.response?.status]. *)
Definition errorStatus (error : option ResponseError) : option Z :=
  e ← error; r ← response e; Some (status r).

(** The [switch (errorStatus)] of the "Error Handling" block: [None] when
    the render goes on, the thrown failure otherwise. *)
Definition errorHandling (errorStatus : option Z) : option Failure :=
  match errorStatus with
  | None => None
  | Some 404%Z => Some (HTTPNotFound "Category Not Found.")
  | Some errorStatus =>
      Some (HTTPError ("HTTP Error " +:+ pretty errorStatus +:+ " occurred."))
  end.

(** The "Response Handling" block. [MAX_CACHE_AGE] is a constant of the
    retail-react-app package. *)
Definition responseHandling (MAX_CACHE_AGE : N) (res : option ServerResponse)
    : option ServerResponse :=
  res_set "Cache-Control" ("max-age=" +:+ pretty MAX_CACHE_AGE) <$> res.

(** [searchQuery ?? '']. *)
Definition query (searchQuery : option string) : string := default "" searchQuery.

(** [!isLoading && category?.id ? `categories.id:${category.id}` : '']. *)
Definition filters (isLoading : bool) (category : option Category) : string :=
  let category_id := c ← category; category_id c in
  if negb isLoading && JS.truthy category_id
  then "categories.id:" +:+ JS.template category_id
  else "".

(** *** Page state, effects and wishlist handlers *)

(** The [useState] cells of the component. *)
Record PageState := {
  st_wishlistLoading : list string;
  st_filtersLoading : bool
}.

Definition setWishlistLoading (v : list string) (st : PageState) : PageState :=
  {| st_wishlistLoading := v; st_filtersLoading := st_filtersLoading st |}.

Definition setFiltersLoading (v : bool) (st : PageState) : PageState :=
  {| st_wishlistLoading := st_wishlistLoading st; st_filtersLoading := v |}.

(** Message descriptors of the retail-react-app constants, as handed to
    [formatMessage]. *)
Inductive Message :=
| API_ERROR_MESSAGE
| TOAST_MESSAGE_ADDED_TO_WISHLIST (quantity : Z)
| TOAST_MESSAGE_REMOVED_FROM_WISHLIST.

Inductive ToastStatus := toast_error | toast_success.

(** The argument of [toast(...)]; [toast_action] is the target of the
    action button, when there is one. *)
Record Toast := {
  toast_title : Message;
  toast_status : ToastStatus;
  toast_action : option string
}.

Record ItemBody := {
  quantity : Z;
  public : bool;
  priority : Z;
  type : string;
  body_productId : string
}.

(** The two mutations of [useShopperCustomersMutation] with their
    parameters. *)
Inductive Request :=
| createCustomerProductListItem (customerId listId : string) (body : ItemBody)
| deleteCustomerProductListItem (customerId listId itemId : string).

(** What a handler does to the world outside the component state. *)
Inductive Effect :=
| scrollTo (x y : Z)                  (* window.scrollTo(x, y) *)
| toast (t : Toast)
| send (r : Request)                  (* a mutation request leaves for the API *)
| navigate (path : string)
| reject (e : JS.Thrown).             (* the promise of an async handler rejects *)

Definition Callback : Type := PageState → PageState * list Effect.

(** The second argument of [mutateAsync]. *)
Record MutationOptions := {
  onError : Callback;
  onSuccess : Callback;
  onSettled : Callback
}.

Inductive MutationOutcome := Fulfilled | Rejected.

(** The callbacks of a [mutateAsync] call (react-query) when they run:
    [onSuccess] or [onError], then [onSettled], in both cases. They run
    when the mutation settles, provided the call is still the one its hook
    follows; see [step]. *)
Definition settle (o : MutationOutcome) (options : MutationOptions) : Callback :=
  λ st,
    let '(st, es1) :=
      match o with
      | Fulfilled => onSuccess options st
      | Rejected => onError options st
      end in
    let '(st, es2) := onSettled options st in
    (st, es1 ++ es2).

(** What a render closes over for its handlers. *)
Record Closure := {
  wishlistLoading : list string;        (* the state value of that render *)
  wishlist : option Wishlist;           (* useWishList().data *)
  customerId : string                   (* useCustomerId() *)
}.

(** An async handler up to its [await]: it threw, or it issued a mutation
    and waits for it. *)
Inductive Started :=
| Threw (e : JS.Thrown)
| Awaiting (request : Request) (options : MutationOptions).

Definition addItemToWishlist (c : Closure) (product : Hit)
    : PageState → PageState * Started :=
  λ st,
    let st := setWishlistLoading (wishlistLoading c ++ [productId product]) st in
    match wishlist c with
    | None => (st, Threw JS.TypeError)
    | Some wishlist =>
        let listId := wishlist_id wishlist in
        (st,
         Awaiting
           (createCustomerProductListItem (customerId c) listId
              {| quantity := 1; public := false; priority := 1;
                 type := "product"; body_productId := productId product |})
           {| onError := λ st,
                (st, [toast {| toast_title := API_ERROR_MESSAGE;
                               toast_status := toast_error;
                               toast_action := None |}]);
              onSuccess := λ st,
                (st, [toast {| toast_title := TOAST_MESSAGE_ADDED_TO_WISHLIST 1;
                               toast_status := toast_success;
                               toast_action := Some "/account/wishlist" |}]);
              onSettled := λ st,
                (setWishlistLoading
                   (filter (λ id, id ≠ productId product) (wishlistLoading c)) st,
                 []) |})
    end.

Definition removeItemFromWishlist (c : Closure) (product : Hit)
    : PageState → PageState * Started :=
  λ st,
    let st := setWishlistLoading (wishlistLoading c ++ [productId product]) st in
    match wishlist c with
    | None => (st, Threw JS.TypeError)
    | Some wishlist =>
        let listId := wishlist_id wishlist in
        match customerProductListItems wishlist with
        | None => (st, Threw JS.TypeError)
        | Some items =>
            match JS.find (λ i, item_productId i = productId product) items with
            | None => (st, Threw JS.TypeError)
            | Some i =>
                let itemId := item_id i in
                (st,
                 Awaiting
                   (deleteCustomerProductListItem (customerId c) listId itemId)
                   {| onError := λ st,
                        (st, [toast {| toast_title := API_ERROR_MESSAGE;
                                       toast_status := toast_error;
                                       toast_action := None |}]);
                      onSuccess := λ st,
                        (st, [toast {| toast_title := TOAST_MESSAGE_REMOVED_FROM_WISHLIST;
                                       toast_status := toast_success;
                                       toast_action := None |}]);
                      onSettled := λ st,
                        (setWishlistLoading
                           (filter (λ id, id ≠ productId product) (wishlistLoading c)) st,
                         []) |})
            end
        end
    end.

(** "Clears all filters". [stringifySearchParams] is the serializer returned
    by [useSearchParams]. *)
Definition resetFilters (stringifySearchParams : SearchParams → string)
    (searchParams : SearchParams) (searchQuery categoryId : option string)
    : list Effect :=
  let newSearchParams := <["refine" := PList []]> searchParams in
  let newPath :=
    if isSearch searchQuery
    then "/search?" +:+ stringifySearchParams newSearchParams
    else "/category/" +:+ JS.template categoryId +:+ "?"
           +:+ stringifySearchParams newSearchParams in
  [navigate newPath].

(** *** Tiles *)

(** The props [hitComponent] gives to [ProductTile]. *)
Record TileProps := {
  product : Hit;
  enableFavourite : bool;
  isFavourite : bool;
  onFavouriteToggle : bool → PageState → PageState * Started
}.

Definition hitComponent (c : Closure) (hit : Hit) : TileProps :=
  let isInWishlist := false in
  {| product := hit;
     enableFavourite := true;
     isFavourite := isInWishlist;
     onFavouriteToggle := λ isFavourite,
       let action :=
         if isFavourite then addItemToWishlist c else removeItemFromWishlist c in
       action hit |}.

(** *** The component body *)

(** Router, context and hook values one render reads. *)
Record Inputs := {
  searchQuery : option string;          (* urlParams.get('q') *)
  categoryId : option string;           (* params.categoryId *)
  res : option ServerResponse;          (* useServerContext().res *)
  productSearch : ProductSearch;        (* useProductSearch(...) *)
  categoryQuery : CategoryQuery;        (* useCategory(..., {enabled}) *)
  closure : Closure
}.

(** What a render that returns hands to its children. *)
Record View := {
  view_res : option ServerResponse;
  view_productSearchResult : option ProductSearchResult;
  view_categoryEnabled : bool;          (* [enabled] of useCategory *)
  view_category : option Category;
  view_searchTabHeader : bool;          (* isSearch && <SearchTabHeader/> *)
  view_query : string;                  (* <Configure query=... /> *)
  view_filters : string;                (* <Configure filters=... /> *)
  view_hitComponent : Hit → TileProps;
  view_includedAttributes : list string;
                       (* <AlgoliaCurrentRefinements includedAttributes=... /> *)
  view_filterAttributes : list string   (* the attributes of [filterEls] *)
}.

Inductive RenderResult :=
| Raised (failure : Failure)
| Rendered (view : View).

Definition hierarchicalCategoryAttributes : list string :=
  ["__primary_category.0"; "__primary_category.1"; "__primary_category.2"].

Definition currentRefinementAttributes : list string :=
  ["size"; "color"; "price.USD"; "__primary_category.0"].

(** The attributes of the refinement widgets in [filterEls]: the
    hierarchical category levels, then color, size and price. *)
Definition filterEls : list string :=
  hierarchicalCategoryAttributes ++ ["color"; "size"; "price.USD"].

Definition ProductList (MAX_CACHE_AGE : N) (i : Inputs) : RenderResult :=
  let isSearch := isSearch (searchQuery i) in
  let enabled := categoryLookupEnabled (searchQuery i) (categoryId i) in
  let categoryQuery := categoryQuery i in
  let productSearchResult :=
    applyDisallowList (productSearchResult (productSearch i)) in
  match errorHandling (errorStatus (error categoryQuery)) with
  | Some failure => Raised failure
  | None =>
      let res := responseHandling MAX_CACHE_AGE (res i) in
      Rendered
        {| view_res := res;
           view_productSearchResult := productSearchResult;
           view_categoryEnabled := enabled;
           view_category := category categoryQuery;
           view_searchTabHeader := isSearch;
           view_query := query (searchQuery i);
           view_filters :=
             filters (isLoading (productSearch i)) (category categoryQuery);
           view_hitComponent := hitComponent (closure i);
           view_includedAttributes := currentRefinementAttributes;
           view_filterAttributes := filterEls |}
  end.

(** *** The event loop of a mounted page *)

(** A [mutateAsync] call whose mutation has not settled: the request it
    sent, the options it was given, and whether the observer of its hook
    still follows it. Each of the two hooks
    ([useShopperCustomersMutation('createCustomerProductListItem')] and
    [...('deleteCustomerProductListItem')]) has one observer, which follows
    the mutation of the latest call only: a later call on the same hook takes
    it away from the earlier ones for good, and the callbacks of a call that
    is not followed never run (react-query). *)
Record Call := {
  call_request : Request;
  call_options : MutationOptions;
  call_observed : bool
}.

(** Were the two requests sent through the same mutation hook. *)
Definition same_hook (r1 r2 : Request) : bool :=
  match r1, r2 with
  | createCustomerProductListItem _ _ _, createCustomerProductListItem _ _ _
  | deleteCustomerProductListItem _ _ _, deleteCustomerProductListItem _ _ _ =>
      true
  | _, _ => false
  end.

(** What a new call sending [request] does to a call in flight. *)
Definition supersede (request : Request) (call : Call) : Call :=
  if same_hook request (call_request call)
  then {| call_request := call_request call;
          call_options := call_options call;
          call_observed := false |}
  else call.

(** The component state, the dependency value the [isRefetching] effect ran
    with last ([None] before the first commit), and the calls in flight,
    oldest first. *)
Record Runtime := {
  page : PageState;
  effectDeps : option bool;
  inFlight : list Call
}.

(** The options of the mutations in flight. *)
Definition pending (rt : Runtime) : list MutationOptions :=
  call_options <$> inFlight rt.

Inductive Event :=
| Commit (isRefetching : bool)          (* a render with this hook value is committed *)
| PageChange                            (* the pagination calls [onPageChange] *)
| FavouriteToggle (hit : Hit) (isFavourite : bool)
                                        (* a tile calls [onFavouriteToggle] *)
| Settled (i : nat) (o : MutationOutcome).
                                        (* the i-th mutation in flight settles *)

(** "Reset scroll position when [isRefetching] becomes [true]": the body of
    the effect. *)
Definition refetchEffect (isRefetching : bool) : Callback :=
  λ st,
    (setFiltersLoading isRefetching st,
     if isRefetching then [scrollTo 0 0] else []).

(** [onPageChange] of [AlgoliaPagination]. *)
Definition onPageChange : Callback := λ st, (st, [scrollTo 0 0]).

(** One turn of the event loop. The handlers of a tile are those of the
    latest render: they close over the current [wishlistLoading]. An effect
    with dependencies [[isRefetching]] runs after the first commit and after
    each commit where the value differs from the previous one. When a
    mutation settles, the callbacks of its call run only if the call is still
    followed by its hook; the promise of [mutateAsync], which the handler
    awaits, settles in either case. *)
Definition step (wishlist : option Wishlist) (customerId : string)
    (rt : Runtime) (e : Event) : Runtime * list Effect :=
  match e with
  | Commit isRefetching =>
      if decide (effectDeps rt = Some isRefetching) then (rt, [])
      else
        let '(st, es) := refetchEffect isRefetching (page rt) in
        ({| page := st; effectDeps := Some isRefetching;
            inFlight := inFlight rt |},
         es)
  | PageChange =>
      let '(st, es) := onPageChange (page rt) in
      ({| page := st; effectDeps := effectDeps rt; inFlight := inFlight rt |},
       es)
  | FavouriteToggle hit isFavourite =>
      let c := {| wishlistLoading := st_wishlistLoading (page rt);
                  wishlist := wishlist;
                  customerId := customerId |} in
      match onFavouriteToggle (hitComponent c hit) isFavourite (page rt) with
      | (st, Threw e) =>
          ({| page := st; effectDeps := effectDeps rt;
              inFlight := inFlight rt |},
           [reject e])
      | (st, Awaiting request options) =>
          ({| page := st; effectDeps := effectDeps rt;
              inFlight :=
                (supersede request <$> inFlight rt)
                ++ [ {| call_request := request;
                        call_options := options;
                        call_observed := true |} ] |},
           [send request])
      end
  | Settled i o =>
      match inFlight rt !! i with
      | None => (rt, [])
      | Some call =>
          let '(st, es) :=
            if call_observed call then settle o (call_options call) (page rt)
            else (page rt, []) in
          ({| page := st; effectDeps := effectDeps rt;
              inFlight := delete i (inFlight rt) |},
           es ++ match o with
                 | Fulfilled => []
                 | Rejected => [reject JS.Rejection]
                 end)
      end
  end.

(** A run of the loop: the final state and everything that happened. *)
Fixpoint run (wishlist : option Wishlist) (customerId : string)
    (rt : Runtime) (es : list Event) : Runtime * list Effect :=
  match es with
  | [] => (rt, [])
  | e :: es =>
      let '(rt, out1) := step wishlist customerId rt e in
      let '(rt, out2) := run wishlist customerId rt es in
      (rt, out1 ++ out2)
  end.

Definition mount : Runtime :=
  {| page := {| st_wishlistLoading := []; st_filtersLoading := false |};
     effectDeps := None;
     inFlight := [] |}.

(** Mutation options whose callbacks never scroll the window. *)
Definition scroll_free (options : MutationOptions) : Prop :=
  ∀ o st x y, scrollTo x y ∉ (settle o options st).2.

(** The states a mounted page can be in: those the loop reaches from
    [mount], whatever the wishlist hook reports along the way. *)
Inductive reachable : Runtime → Prop :=
| reachable_mount : reachable mount
| reachable_step wishlist customerId rt e :
    reachable rt → reachable (step wishlist customerId rt e).1.

End ProductListPage.

(** ** Swatch images and hover (algolia-product-colors.jsx,
    algolia-product-swatch.jsx) *)
Module SwatchImages.
Import Swatch.

(** The [selectedColors] prop: per master product the image link of the
    color last hovered, or [null]. *)
Abbreviation SelectedColors := (gmap string (option string)).

(** [variant.image_groups[0].images[0].dis_base_link]: indexing past the end
    of an array gives [undefined], whose properties cannot be read. *)
Definition firstImageLink (image_groups : list ImageGroup) : JS.Completion string :=
  match image_groups with
  | [] => JS.Throw JS.TypeError
  | group :: _ =>
      match images group with
      | [] => JS.Throw JS.TypeError
      | image :: _ => JS.Normal (dis_base_link image)
      end
  end.

(** [handleSetSelectedColors(variant)], on the variant's [image_groups]:
    [Normal None] when it returns without calling [setSelectedColors],
    [Normal (Some m)] when it calls it with [m]. *)
Definition handleSetSelectedColors (product : Product)
    (selectedColors : SelectedColors) (image_groups : list ImageGroup)
    : JS.Completion (option SelectedColors) :=
  let allColors := selectedColors in
  match firstImageLink image_groups with
  | JS.Throw e => JS.Throw e
  | JS.Normal newPhotoUrl =>
      let allColors :=
        if JS.truthy (mjoin (allColors !! masterID product)) then allColors
        else <[masterID product := None]> allColors in
      if decide (Some (Some newPhotoUrl) ≠ allColors !! masterID product)
      then JS.Normal (Some (<[masterID product := Some newPhotoUrl]> allColors))
      else JS.Normal None
  end.

(** The [selectedColors] the parent holds after the handler ran. *)
Definition afterHover (selectedColors : SelectedColors)
    (update : option SelectedColors) : SelectedColors :=
  default selectedColors update.

(** [findSwatchImage(variant)] of the swatch component: the loop over
    [image_groups]. *)
Fixpoint findSwatchImage (image_groups : list ImageGroup) : JS.Completion string :=
  match image_groups with
  | [] => JS.Normal ""
  | group :: image_groups =>
      if decide (view_type group = "swatch") then
        match images group with
        | [] => JS.Throw JS.TypeError
        | image :: _ => JS.Normal (dis_base_link image)
        end
      else findSwatchImage image_groups
  end.

(** One swatch of [AlgoliaProductSwatch]: the [color] parameter of its link
    ([linkBuilder] reads [variant.colorCode]) and its background image,
    [`url(${findSwatchImage(variant)})`]. [findSwatchImage] reads
    [image_groups.length] first, which throws when [variant.image_groups] is
    [undefined]. *)
Definition renderImageSwatch (variant : option Variant)
    : JS.Completion (string * string) :=
  match variant with
  | None => JS.Throw JS.TypeError
  | Some variant =>
      match image_groups variant with
      | None => JS.Throw JS.TypeError
      | Some image_groups =>
          match findSwatchImage image_groups with
          | JS.Throw e => JS.Throw e
          | JS.Normal link =>
              JS.Normal (colorCode variant, "url(" +:+ link +:+ ")")
          end
      end
  end.

(** The body of [AlgoliaProductSwatch] (algolia-product-swatch.jsx). *)
Definition renderImageSwatches (product : Product)
    : JS.Completion (list (string * string)) :=
  let sortedColorVariations :=
    sortColorVariations product (colorVariations product) in
  match colorVariations product with
  | None | Some [] => JS.Normal []
  | Some _ => JS.map renderImageSwatch sortedColorVariations
  end.

End SwatchImages.

(** ** Further computations of the product-list page *)
Module SearchState.
Import Stdlib.Strings.Ascii ProductListPage.

(** *** Search parameters handed to [useProductSearch] *)

(** [if (params.categoryId) searchParams._refine.push(`cgid=...`)]. Only an
    array has [push]. *)
Definition pushCategoryRefinement (categoryId : option string)
    (searchParams : SearchParams) : JS.Completion SearchParams :=
  if JS.truthy categoryId then
    match searchParams !! "_refine" with
    | Some (PList _refine) =>
        JS.Normal
          (<["_refine" := PList (_refine ++ ["cgid=" +:+ JS.template categoryId])]>
             searchParams)
    | _ => JS.Throw JS.TypeError
    end
  else JS.Normal searchParams.

(** [{...searchParams, refine: searchParams._refine}]; a key whose value is
    [undefined] reads like a missing key. *)
Definition withRefine (searchParams : SearchParams) : SearchParams :=
  match searchParams !! "_refine" with
  | Some _refine => <["refine" := _refine]> searchParams
  | None => delete "refine" searchParams
  end.

(** The [parameters] of the [useProductSearch] call of a render. *)
Definition productSearchParameters (categoryId : option string)
    (searchParams : SearchParams) : JS.Completion SearchParams :=
  match pushCategoryRefinement categoryId searchParams with
  | JS.Throw e => JS.Throw e
  | JS.Normal searchParams => JS.Normal (withRefine searchParams)
  end.

(** *** Sorting options *)

Record SortingOption := {
  option_id : string;
  option_label : string
}.

(** [sortingOptions?.find((option) => option.id === selected) ??
    sortingOptions?.[0]]. *)
Definition selectedSortingOptionLabel (sortingOptions : option (list SortingOption))
    (selectedSortingOption : option string) : option SortingOption :=
  match sortingOptions with
  | None => None
  | Some sortingOptions =>
      match JS.find (λ option, Some (option_id option) = selectedSortingOption)
              sortingOptions with
      | Some option => Some option
      | None => head sortingOptions
      end
  end.

(** *** The value of the [Sort] select:
    [basePath.replace(/(offset)=(\d+)/i, '$1=0')]

    The path is a list of characters. *)

Abbreviation chars s := (String.list_ascii_of_string s).

(** [\d]. *)
Definition isDigit (c : Ascii.ascii) : bool :=
  let n := Ascii.N_of_ascii c in ((48 <=? n) && (n <=? 57))%N.

(** The text left after the longest run of digits ([\d+] is greedy). *)
Fixpoint dropDigits (l : list Ascii.ascii) : list Ascii.ascii :=
  match l with
  | [] => []
  | c :: l' => if isDigit c then dropDigits l' else l
  end.

(** Does [/(offset)=(\d+)/i] match at the start of [l]: six characters that
    are "offset" up to case, an equals sign, and a digit. *)
Definition offsetAt (l : list Ascii.ascii) : bool :=
  bool_decide (toLowerCase_ascii <$> take 6 l = chars "offset")
  && bool_decide (l !! 6 = Some "="%char)
  && from_option isDigit false (l !! 7).

(** [replace] without the [g] flag: the leftmost match is replaced by its
    first group followed by [=0]; without a match the text is returned as it
    is. *)
Fixpoint resetOffset (l : list Ascii.ascii) : list Ascii.ascii :=
  if offsetAt l then take 6 l ++ chars "=0" ++ dropDigits (drop 8 l)
  else
    match l with
    | [] => []
    | c :: l' => c :: resetOffset l'
    end.

(** [/(offset)=(\d+)/i.test(l)]: the pattern matches somewhere. *)
Fixpoint containsOffset (l : list Ascii.ascii) : bool :=
  offsetAt l
  || match l with
     | [] => false
     | _ :: l' => containsOffset l'
     end.

(** *** Click reporting of a tile *)

(** Calls to the Algolia insights function [sendEvent] and to the Einstein
    client, with the arguments as passed. *)
Inductive Beacon :=
| sendEvent (eventType : string) (hit : Hit) (eventName : string)
| sendClickSearch (searchQuery : option string) (hit : Hit)
| sendClickCategory (category : option Category) (hit : Hit).

(** The [onClick] that [hitComponent] gives to the tile. *)
Definition onClick (searchQuery : option string) (category : option Category)
    (hit : Hit) : list Beacon :=
  sendEvent "click" hit "Product Clicked"
  :: (if JS.truthy searchQuery then [sendClickSearch searchQuery hit]
      else if bool_decide (is_Some category) then [sendClickCategory category hit]
      else []).

(** *** Mutations in flight *)

(** Options that one of the two wishlist handlers passed to [mutateAsync]
    for the product with id [pid]. *)
Definition issued_for (pid : string) (options : MutationOptions) : Prop :=
  ∃ (c : Closure) (hit : Hit) (isFavourite : bool) (st : PageState)
    (request : Request),
    productId hit = pid
    ∧ ((if isFavourite then addItemToWishlist c else removeItemFromWishlist c)
         hit st).2 = Awaiting request options.

Definition issued (options : MutationOptions) : Prop :=
  ∃ pid, issued_for pid options.

(** Events that commit a render, as opposed to user and network events. *)
Definition is_commit (e : Event) : bool :=
  match e with
  | Commit _ => true
  | _ => false
  end.

End SearchState.

(** ** Sample data *)
Module Sample.
Import Swatch ProductListPage.

Definition swatch_of (link : string) : ImageGroup :=
  {| view_type := "swatch"; images := [ {| dis_base_link := link |} ] |}.

Definition red : Variant :=
  {| color := "Red"; colorCode := "R01";
     image_groups := Some [swatch_of "https://img.example/red-swatch.jpg"] |}.
Definition blue : Variant :=
  {| color := "Blue"; colorCode := "B02";
     image_groups := Some [swatch_of "https://img.example/blue-swatch.jpg"] |}.
Definition navy : Variant :=
  {| color := "Blue"; colorCode := "B07";
     image_groups := Some [swatch_of "https://img.example/navy-swatch.jpg"] |}.

(** A variant whose swatch view has no image. *)
Definition grey : Variant :=
  {| color := "Grey"; colorCode := "G05";
     image_groups := Some [ {| view_type := "swatch"; images := [] |} ] |}.

(** A variant without [image_groups]. *)
Definition plain : Variant :=
  {| color := "White"; colorCode := "W00"; image_groups := None |}.

(** A product whose own color is listed, next to a variant without
    [image_groups]. *)
Definition blue_and_plain : Product :=
  {| masterID := "25517823M"; product_color := "Blue";
     colorVariations := Some [blue; plain] |}.

(** A product whose own color is listed, next to a variant without swatch
    image. *)
Definition blue_and_grey : Product :=
  {| masterID := "25517823M"; product_color := "Blue";
     colorVariations := Some [grey; blue] |}.

(** A product whose own color is one of its two variants. *)
Definition blue_shirt : Product :=
  {| masterID := "25517823M"; product_color := "Blue";
     colorVariations := Some [red; blue] |}.

(** A product whose own color is not listed among its variants. *)
Definition green_shirt : Product :=
  {| masterID := "25517823M"; product_color := "Green";
     colorVariations := Some [red; blue] |}.

(** A product whose own color is listed twice. *)
Definition two_blues : Product :=
  {| masterID := "25517823M"; product_color := "Blue";
     colorVariations := Some [red; blue; navy] |}.

Definition is_new : Refinement := {| attributeId := "c_isNew"; label := "New Arrival" |}.
Definition by_color : Refinement :=
  {| attributeId := "c_refinementColor"; label := "Color" |}.
Definition by_price : Refinement := {| attributeId := "price"; label := "Price" |}.

Definition settled_search : ProductSearch :=
  {| isLoading := false; isRefetching := false;
     productSearchResult :=
       Some {| refinements := Some [by_color; is_new; by_price]; total := 25 |} |}.

Definition html_response : ServerResponse :=
  {| statusCode := 200;
     headers := {[ "content-type" := "text/html"; "cache-control" := "no-store" ]} |}.

Definition mens : Category := {| category_id := Some "mens"; pageTitle := "Mens" |}.

Definition shirt : Hit := {| id := "701643070756M"; productId := "701643070756M" |}.
Definition tie : Hit := {| id := "793775370033M"; productId := "793775370033M" |}.

Definition saved : Wishlist :=
  {| wishlist_id := "wl-1";
     customerProductListItems :=
       Some [ {| item_id := "item-7"; item_productId := "793775370033M" |};
              {| item_id := "item-9"; item_productId := "701643070756M" |};
              {| item_id := "item-12"; item_productId := "701643070756M" |} ] |}.

Definition guest : Closure :=
  {| wishlistLoading := []; wishlist := Some saved; customerId := "abkehFwKoXkbcRmrFIlaYYwKtJ" |}.

(** /category/mens on the server, category found. *)
Definition category_page : Inputs :=
  {| searchQuery := None; categoryId := Some "mens"; res := Some html_response;
     productSearch := settled_search;
     categoryQuery := {| error := None; category := Some mens |};
     closure := guest |}.

(** /category/mens with a search result that carries no refinement. *)
Definition unrefined_category_page : Inputs :=
  {| searchQuery := None; categoryId := Some "mens"; res := Some html_response;
     productSearch :=
       {| isLoading := false; isRefetching := false;
          productSearchResult := Some {| refinements := Some []; total := 25 |} |};
     categoryQuery := {| error := None; category := Some mens |};
     closure := guest |}.

(** /search?q=shirt in the browser. *)
Definition search_page : Inputs :=
  {| searchQuery := Some "shirt"; categoryId := None; res := None;
     productSearch := settled_search;
     categoryQuery := {| error := None; category := None |};
     closure := guest |}.

(** /search without a query string. *)
Definition bare_search_page : Inputs :=
  {| searchQuery := None; categoryId := None; res := None;
     productSearch := settled_search;
     categoryQuery := {| error := None; category := None |};
     closure := guest |}.

(** /category/nope: the lookup answers 404. *)
Definition missing_category_page : Inputs :=
  {| searchQuery := None; categoryId := Some "nope"; res := Some html_response;
     productSearch := settled_search;
     categoryQuery :=
       {| error := Some {| response := Some {| status := 404 |} |};
          category := None |};
     closure := guest |}.

(** /category/mens: the lookup answers 500. *)
Definition failing_category_page : Inputs :=
  {| searchQuery := None; categoryId := Some "mens"; res := Some html_response;
     productSearch := settled_search;
     categoryQuery :=
       {| error := Some {| response := Some {| status := 500 |} |};
          category := None |};
     closure := guest |}.

Definition search_params : SearchParams :=
  {[ "q" := PStr "shirt"; "limit" := PNum 25; "offset" := PNum 0;
     "refine" := PList ["c_refinementColor=Blue"];
     "_refine" := PList ["c_refinementColor=Blue"] ]}.

(** A serializer that only tells how many refinements are selected. *)
Definition count_refinements (p : SearchParams) : string :=
  match p !! "refine" with
  | Some (PList l) => "refine=" +:+ pretty (length l)
  | _ => ""
  end.

(** Image groups of a variant: a large view, then two swatch views. *)
Definition blue_images : list Swatch.ImageGroup :=
  [ {| Swatch.view_type := "large";
       Swatch.images :=
         [ {| Swatch.dis_base_link := "https://img.example/blue-large.jpg" |};
           {| Swatch.dis_base_link := "https://img.example/blue-back.jpg" |} ] |};
    {| Swatch.view_type := "swatch";
       Swatch.images :=
         [ {| Swatch.dis_base_link := "https://img.example/blue-swatch.jpg" |} ] |};
    {| Swatch.view_type := "swatch"; Swatch.images := [] |} ].

Definition hovered : gmap string (option string) :=
  {[ "25517823M" := Some "https://img.example/red-large.jpg";
     "25720424M" := None ]}.

(** /category/mens while the network is down: the lookup fails without a
    response. *)
Definition offline_category_page : Inputs :=
  {| searchQuery := None; categoryId := Some "mens"; res := None;
     productSearch := settled_search;
     categoryQuery := {| error := Some {| response := None |}; category := None |};
     closure := guest |}.

Definition sorting_options : list SearchState.SortingOption :=
  [ {| SearchState.option_id := "best-matches";
       SearchState.option_label := "Best Matches" |};
    {| SearchState.option_id := "price-low-to-high";
       SearchState.option_label := "Price Low To High" |} ].

End Sample.

(* ===================================================================== *)
(** * Part II: properties                                                *)
(* ===================================================================== *)

Import Swatch ProductListPage.

(** Closes a decidable goal on concrete data by evaluation. *)
Ltac decided :=
  match goal with
  | |- ?P => apply (bool_decide_unpack P); vm_compute; exact I
  end.

(** ** [Array.prototype.find] *)
Section find.
Context {A : Type} (P : A → Prop) `{!∀ x, Decision (P x)}.
Implicit Types (x : A) (l : list A).

Lemma find_cons x l :
  JS.find P (x :: l) = if decide (P x) then Some x else JS.find P l.
Proof.
  unfold JS.find. simpl. case_decide; [done|].
  by destruct (list_find P l) as [[? ?]|].
Qed.

Lemma find_Some l x : JS.find P l = Some x → P x ∧ x ∈ l.
Proof.
  unfold JS.find. destruct (list_find P l) as [[i y]|] eqn:E; [|done].
  intros [= <-]. apply list_find_Some in E as (Hi & HP & _).
  split; [done|]. by eapply list_elem_of_lookup_2.
Qed.

Lemma find_None l : JS.find P l = None ↔ Forall (λ x, ¬ P x) l.
Proof.
  unfold JS.find. rewrite fmap_None. apply list_find_None.
Qed.

(** [find] returns the first match. *)
Lemma find_first l1 x l2 :
  Forall (λ y, ¬ P y) l1 → P x → JS.find P (l1 ++ x :: l2) = Some x.
Proof.
  intros Hl1 Hx. induction Hl1 as [|y l1 Hy _ IH]; simpl.
  - by rewrite find_cons, decide_True.
  - by rewrite find_cons, decide_False.
Qed.

Lemma find_is_Some l : is_Some (JS.find P l) ↔ ∃ x, x ∈ l ∧ P x.
Proof.
  split.
  - intros [x Hx]. exists x. by destruct (find_Some _ _ Hx).
  - intros (x & Hin & HP). apply not_eq_None_Some. intros HN.
    apply find_None in HN. rewrite Forall_forall in HN. naive_solver.
Qed.

Lemma filter_Forall_id l : Forall P l → filter P l = l.
Proof.
  induction 1 as [|x l Hx _ IH]; [done|].
  by rewrite filter_cons_True, IH.
Qed.

Lemma length_filter_complement l :
  length (filter P l) + length (filter (λ x, ¬ P x) l) = length l.
Proof. by rewrite <- length_app, filter_app_complement. Qed.

End find.

(** ** Color swatches *)
Section swatches.
Implicit Types (product : Product) (vs : list Variant) (v : Variant).

(** X1. The length of the sorted list: one slot for the result of [find], plus
    the variants of another color. *)
Lemma sortColorVariations_length product vs :
  length (sortColorVariations product (Some vs))
  + length (filter (λ c, color c = product_color product) vs)
  = S (length vs).
Proof.
  simpl. rewrite length_fmap.
  rewrite <- (length_filter_complement (λ c, color c = product_color product) vs).
  lia.
Qed.

(** X2. When the product's color is the color of exactly one variant, the sorted
    list is that variant followed by the others in source order, so it has as
    many elements as there are variants. *)
Lemma sortColorVariations_present_once product l1 v l2 :
  color v = product_color product →
  Forall (λ c, color c ≠ product_color product) l1 →
  Forall (λ c, color c ≠ product_color product) l2 →
  sortColorVariations product (Some (l1 ++ v :: l2)) = Some v :: (Some <$> l1 ++ l2)
  ∧ length (sortColorVariations product (Some (l1 ++ v :: l2)))
    = length (l1 ++ v :: l2).
Proof.
  intros Hv Hl1 Hl2.
  assert (sortColorVariations product (Some (l1 ++ v :: l2))
          = Some v :: (Some <$> l1 ++ l2)) as ->.
  { simpl. f_equal.
    - by apply (find_first (λ c, color c = product_color product)).
    - rewrite filter_app, filter_cons_False by naive_solver.
      by rewrite !filter_Forall_id. }
  split; [done|]. simpl. rewrite length_fmap, !length_app. simpl. lia.
Qed.

(** X3. When no variant has the product's color, the sorted list starts with
    [undefined] and is one longer than the variant list. *)
Lemma sortColorVariations_absent product vs :
  Forall (λ c, color c ≠ product_color product) vs →
  sortColorVariations product (Some vs) = None :: (Some <$> vs).
Proof.
  intros Hvs. simpl. f_equal.
  - by apply find_None.
  - by rewrite filter_Forall_id.
Qed.

Example sortColorVariations_blue_shirt :
  sortColorVariations Sample.blue_shirt (colorVariations Sample.blue_shirt)
  = [Some Sample.blue; Some Sample.red]
  ∧ render Sample.blue_shirt = JS.Normal ["B02"; "R01"].
Proof. by vm_compute. Qed.

(** A color listed twice: [find] keeps one variant, [filter] drops both. *)
Example sortColorVariations_two_blues :
  sortColorVariations Sample.two_blues (colorVariations Sample.two_blues)
  = [Some Sample.blue; Some Sample.red].
Proof. by vm_compute. Qed.

(** C1. For a product with two color variants (Red, Blue) and own color
    Green, [sortColorVariations] yields three elements, the first of which
    is [undefined], and rendering the swatches throws: the sorted list does
    not have the length of the variant list. *)
Theorem sortColorVariations_color_absent :
  sortColorVariations Sample.green_shirt (colorVariations Sample.green_shirt)
  = [None; Some Sample.red; Some Sample.blue]
  ∧ length (sortColorVariations Sample.green_shirt
              (colorVariations Sample.green_shirt)) = 3
  ∧ (length <$> colorVariations Sample.green_shirt) = Some 2
  ∧ render Sample.green_shirt = JS.Throw JS.TypeError.
Proof. by vm_compute. Qed.

End swatches.

(** ** Strings *)

Lemma list_ascii_of_string_app (a s : string) :
  String.list_ascii_of_string (a +:+ s)
  = String.list_ascii_of_string a ++ String.list_ascii_of_string s.
Proof.
  induction a as [|c a IH]; [done|].
  change (String c a +:+ s) with (String c (a +:+ s)). simpl. by rewrite IH.
Qed.

Lemma string_app_inj_r (s a b : string) : a +:+ s = b +:+ s → a = b.
Proof.
  intros H%(f_equal String.list_ascii_of_string).
  rewrite !list_ascii_of_string_app in H. apply app_inv_tail in H.
  rewrite <- (String.string_of_list_ascii_of_string a), H.
  apply String.string_of_list_ascii_of_string.
Qed.

(** ** The render body of the product-list page *)
Section render.
Variable MAX_CACHE_AGE : N.
Implicit Types (i : Inputs) (view : View) (s : Z).

Lemma errorHandling_other s :
  s ≠ 404%Z →
  errorHandling (Some s)
  = Some (HTTPError ("HTTP Error " +:+ pretty s +:+ " occurred.")).
Proof.
  intros Hs. destruct s as [|p|p]; [done| |done].
  do 9 (destruct p as [p|p|]; try done).
Qed.

Lemma errorHandling_404 :
  errorHandling (Some 404%Z) = Some (HTTPNotFound "Category Not Found.").
Proof. done. Qed.

(** The failure that is raised determines the status it was raised for. *)
Lemma errorHandling_inj s s' :
  errorHandling (Some s) = errorHandling (Some s') → s = s'.
Proof.
  destruct (decide (s = 404%Z)) as [->|Hs], (decide (s' = 404%Z)) as [->|Hs'];
    [done| | |].
  - by rewrite errorHandling_404, errorHandling_other.
  - by rewrite errorHandling_404, errorHandling_other.
  - rewrite !errorHandling_other by done. intros [= H].
    apply (inj (String.append _)) in H. apply string_app_inj_r in H.
    by apply (inj pretty).
Qed.

Lemma ProductList_raised i failure :
  errorHandling (errorStatus (error (categoryQuery i))) = Some failure →
  ProductList MAX_CACHE_AGE i = Raised failure.
Proof. unfold ProductList. by intros ->. Qed.

Lemma ProductList_rendered i view :
  ProductList MAX_CACHE_AGE i = Rendered view →
  errorHandling (errorStatus (error (categoryQuery i))) = None
  ∧ view_res view = responseHandling MAX_CACHE_AGE (res i)
  ∧ view_productSearchResult view
    = applyDisallowList (productSearchResult (productSearch i))
  ∧ view_categoryEnabled view
    = categoryLookupEnabled (searchQuery i) (categoryId i)
  ∧ view_category view = category (categoryQuery i)
  ∧ view_searchTabHeader view = isSearch (searchQuery i)
  ∧ view_query view = query (searchQuery i)
  ∧ view_filters view
    = filters (isLoading (productSearch i)) (category (categoryQuery i))
  ∧ view_hitComponent view = hitComponent (closure i)
  ∧ view_includedAttributes view = currentRefinementAttributes
  ∧ view_filterAttributes view = filterEls.
Proof.
  unfold ProductList.
  destruct (errorHandling _) eqn:E; [done|]. by intros [= <-].
Qed.

(** C2. Whatever the category lookup reports: an error with status 404
    makes the render raise [HTTPNotFound]; an error with any other status
    makes it raise [HTTPError] with the message "HTTP Error <status>
    occurred."; without an error status the render raises nothing and
    returns. The failure raised determines the status. *)
Theorem category_error_taxonomy i :
  let errorStatus := errorStatus (error (categoryQuery i)) in
  (errorStatus = Some 404%Z →
   ProductList MAX_CACHE_AGE i = Raised (HTTPNotFound "Category Not Found."))
  ∧ (∀ s, errorStatus = Some s → s ≠ 404%Z →
       ProductList MAX_CACHE_AGE i
       = Raised (HTTPError ("HTTP Error " +:+ pretty s +:+ " occurred.")))
  ∧ (errorStatus = None → ∃ view, ProductList MAX_CACHE_AGE i = Rendered view)
  ∧ (∀ s s', errorHandling (Some s) = errorHandling (Some s') → s = s').
Proof.
  simpl. repeat split.
  - intros E. apply ProductList_raised. by rewrite E.
  - intros s E Hs. apply ProductList_raised. rewrite E.
    by apply errorHandling_other.
  - intros E. unfold ProductList. rewrite E. simpl. eauto.
  - apply errorHandling_inj.
Qed.

(** The disallow list applied to a result that carries refinements: an
    entry survives exactly when its attribute is not on the list, and the
    survivors keep their order. *)
Lemma applyDisallowList_refinements (result : ProductSearchResult)
    (rs : list Refinement) :
  refinements result = Some rs →
  ∃ rs',
    applyDisallowList (Some result)
    = Some {| refinements := Some rs'; total := total result |}
    ∧ (∀ r, r ∈ rs' ↔ r ∈ rs ∧ attributeId r ∉ REFINEMENT_DISALLOW_LIST)
    ∧ rs' `sublist_of` rs.
Proof.
  intros E. eexists. unfold applyDisallowList. rewrite E.
  split; [done|]. split.
  - intros r. rewrite list_elem_of_filter. tauto.
  - apply sublist_filter.
Qed.

(** C4, as amended. In every render that returns, the refinements of the
    product search result the page holds are those of the upstream result
    whose [attributeId] is not in [REFINEMENT_DISALLOW_LIST]: listed
    attributes are removed, all others are kept, in their order. The
    refinement display is not fed from that result: the current-refinements
    component and the filter widgets are given fixed lists of attributes,
    whatever the result holds. *)
Theorem disallowed_refinements_removed i view (result : ProductSearchResult)
    (rs : list Refinement) :
  ProductList MAX_CACHE_AGE i = Rendered view →
  productSearchResult (productSearch i) = Some result →
  refinements result = Some rs →
  (∃ rs',
     view_productSearchResult view
     = Some {| refinements := Some rs'; total := total result |}
     ∧ (∀ r, r ∈ rs → attributeId r ∈ REFINEMENT_DISALLOW_LIST → r ∉ rs')
     ∧ (∀ r, r ∈ rs → attributeId r ∉ REFINEMENT_DISALLOW_LIST → r ∈ rs')
     ∧ (∀ r, r ∈ rs' → r ∈ rs)
     ∧ rs' `sublist_of` rs)
  ∧ view_includedAttributes view
    = ["size"; "color"; "price.USD"; "__primary_category.0"]
  ∧ view_filterAttributes view
    = ["__primary_category.0"; "__primary_category.1"; "__primary_category.2";
       "color"; "size"; "price.USD"].
Proof.
  intros (_ & _ & Hv & _ & _ & _ & _ & _ & _ & -> & ->)%ProductList_rendered
    Hres Hrs.
  split; [|done].
  destruct (applyDisallowList_refinements result rs Hrs) as (rs' & E & Hin & Hsub).
  exists rs'. rewrite Hv, Hres. split; [done|].
  repeat split; [| | |done]; intros r; rewrite Hin; tauto.
Qed.

(** C8. In a render that returns while a response object is present, the
    response handed on carries [Cache-Control: max-age=MAX_CACHE_AGE], a
    value that does not depend on the page; every other header and the
    status code are those of the response the render received. *)
Theorem cache_control_on_success i view (r : ServerResponse) :
  res i = Some r →
  ProductList MAX_CACHE_AGE i = Rendered view →
  ∃ r',
    view_res view = Some r'
    ∧ headers r' !! "cache-control" = Some ("max-age=" +:+ pretty MAX_CACHE_AGE)
    ∧ (∀ field, field ≠ "cache-control" → headers r' !! field = headers r !! field)
    ∧ statusCode r' = statusCode r.
Proof.
  intros Hres (_ & Hv & _)%ProductList_rendered.
  rewrite Hv, Hres. simpl. eexists. split; [done|]. simpl.
  change (toLowerCase "Cache-Control") with "cache-control".
  repeat split.
  - apply lookup_insert_eq.
  - intros field Hne. by apply lookup_insert_ne.
Qed.

(** C6, as amended. In a render that returns, free-text search and the
    category lookup are never both active. With a non-empty [q] the page is
    a search page: the lookup is disabled and the query is [q]. Without [q]
    (or with an empty one) the query is empty and the lookup is enabled
    exactly when the route has a category id; the filter string names the
    id of the category the lookup reports once the product search is not
    loading, and is empty while it loads or while no category is known. *)
Theorem scope_at_most_one i view :
  ProductList MAX_CACHE_AGE i = Rendered view →
  ¬ (view_searchTabHeader view = true ∧ view_categoryEnabled view = true)
  ∧ (∀ q, searchQuery i = Some q → q ≠ "" →
       view_searchTabHeader view = true
       ∧ view_categoryEnabled view = false
       ∧ view_query view = q)
  ∧ (searchQuery i = None ∨ searchQuery i = Some "" →
       view_searchTabHeader view = false
       ∧ view_query view = ""
       ∧ view_categoryEnabled view = JS.truthy (categoryId i)
       ∧ (∀ c cid,
            isLoading (productSearch i) = false →
            view_category view = Some c → category_id c = Some cid → cid ≠ "" →
            view_filters view = "categories.id:" +:+ cid)
       ∧ (isLoading (productSearch i) = true ∨ view_category view = None →
            view_filters view = "")).
Proof.
  intros (_ & _ & _ & -> & -> & -> & -> & -> & _)%ProductList_rendered.
  unfold categoryLookupEnabled, isSearch. split; [|split].
  - intros [-> [=]].
  - intros q -> Hq. simpl. by rewrite bool_decide_true.
  - intros Hq.
    assert (JS.truthy (searchQuery i) = false ∧ query (searchQuery i) = "")
      as [-> ->] by (by destruct Hq as [-> | ->]).
    simpl. repeat split.
    + intros c cid -> -> Hc Hcid. unfold filters. simpl. rewrite Hc. simpl.
      by rewrite bool_decide_true.
    + unfold filters. intros [-> | ->]; [done|]. simpl.
      by rewrite andb_false_r.
Qed.

(** "Clears all filters": the one thing [resetFilters] does is navigate, to
    a path built from the search parameters with [refine] emptied. *)
Lemma resetFilters_navigates (stringifySearchParams : SearchParams → string)
    (searchParams : SearchParams) (q categoryId : option string) :
  ∃ path, resetFilters stringifySearchParams searchParams q categoryId
          = [navigate path].
Proof. by eexists. Qed.

(** C5. [resetFilters] navigates to one target. Its search parameters have
    an empty [refine] list and agree with the current ones on every other
    key, [q] included; its path is [/search?...] when a free-text search is
    active and [/category/<categoryId>?...] with the route's category id
    otherwise. *)
Theorem resetFilters_target (stringifySearchParams : SearchParams → string)
    (searchParams : SearchParams) (q categoryId : option string) :
  ∃ newSearchParams : SearchParams,
    newSearchParams !! "refine" = Some (PList [])
    ∧ (∀ key, key ≠ "refine" → newSearchParams !! key = searchParams !! key)
    ∧ newSearchParams !! "q" = searchParams !! "q"
    ∧ (isSearch q = true →
         resetFilters stringifySearchParams searchParams q categoryId
         = [navigate ("/search?" +:+ stringifySearchParams newSearchParams)])
    ∧ (isSearch q = false →
         resetFilters stringifySearchParams searchParams q categoryId
         = [navigate ("/category/" +:+ JS.template categoryId +:+ "?"
                        +:+ stringifySearchParams newSearchParams)]
         ∧ ∀ cid, categoryId = Some cid → JS.template categoryId = cid).
Proof.
  exists (<["refine" := PList []]> searchParams).
  split; [apply lookup_insert_eq|].
  split; [intros key Hkey; by apply lookup_insert_ne|].
  split; [by apply lookup_insert_ne|].
  unfold resetFilters. split; intros ->; [done|].
  split; [done|]. by intros cid ->.
Qed.

(** C10. Whatever the wishlist holds, the tile of a hit is rendered with
    [isFavourite = false] and with the favourite control enabled; its toggle
    callback adds on [true] and removes on [false], so a toggle that asks
    for the opposite of the state the tile shows runs [addItemToWishlist] on
    that hit. *)
Theorem tiles_never_favourited (c : Closure) (hit : Hit) :
  let tile := hitComponent c hit in
  isFavourite tile = false
  ∧ enableFavourite tile = true
  ∧ product tile = hit
  ∧ onFavouriteToggle tile true = addItemToWishlist c hit
  ∧ onFavouriteToggle tile false = removeItemFromWishlist c hit
  ∧ onFavouriteToggle tile (negb (isFavourite tile)) = addItemToWishlist c hit.
Proof. done. Qed.

End render.

(** C2, at concrete pages: a 404 lookup, a 500 lookup, and a search page
    without lookup error. *)
Lemma category_error_taxonomy_witness :
  ProductList 900 Sample.missing_category_page
  = Raised (HTTPNotFound "Category Not Found.")
  ∧ ProductList 900 Sample.failing_category_page
    = Raised (HTTPError "HTTP Error 500 occurred.")
  ∧ ∃ view, ProductList 900 Sample.search_page = Rendered view.
Proof.
  split; [|split].
  - apply (proj1 (category_error_taxonomy 900 Sample.missing_category_page)).
    reflexivity.
  - apply (proj1 (proj2 (category_error_taxonomy 900 Sample.failing_category_page))
             500%Z); [reflexivity|lia].
  - apply (proj1 (proj2 (proj2 (category_error_taxonomy 900 Sample.search_page)))).
    reflexivity.
Defined.

(** C4: on the category page the upstream result carries a refinement by
    price, whose attribute is not on the disallow list. Nothing of it reaches
    the refinement display: the attributes given to the current-refinements
    component and to the filter widgets do not include it, and they are the
    same when the upstream result carries no refinement at all. *)
Lemma displayed_refinements_ignore_result :
  ∃ view view',
    ProductList 900 Sample.category_page = Rendered view
    ∧ ProductList 900 Sample.unrefined_category_page = Rendered view'
    ∧ (productSearchResult (productSearch Sample.category_page) ≫= refinements)
      = Some [Sample.by_color; Sample.is_new; Sample.by_price]
    ∧ (productSearchResult (productSearch Sample.unrefined_category_page)
         ≫= refinements) = Some []
    ∧ (attributeId Sample.by_price ∉ REFINEMENT_DISALLOW_LIST)
    ∧ (attributeId Sample.by_price
       ∉ view_includedAttributes view ++ view_filterAttributes view)
    ∧ view_includedAttributes view = view_includedAttributes view'
    ∧ view_filterAttributes view = view_filterAttributes view'.
Proof.
  do 2 eexists. do 4 (split; [reflexivity|]).
  split; [decided|]. split; [decided|]. split; reflexivity.
Qed.

(** C4 as amended, on the category page: of Color, New Arrival and Price the
    listed [c_isNew] is dropped from the result the page holds. *)
Lemma disallowed_refinements_removed_witness :
  ∃ view rs',
    ProductList 900 Sample.category_page = Rendered view
    ∧ view_productSearchResult view
      = Some {| refinements := Some rs'; total := 25 |}
    ∧ (Sample.is_new ∉ rs') ∧ (Sample.by_color ∈ rs') ∧ (Sample.by_price ∈ rs')
    ∧ view_includedAttributes view
      = ["size"; "color"; "price.USD"; "__primary_category.0"].
Proof.
  eexists.
  destruct (disallowed_refinements_removed 900 Sample.category_page _ _
              [Sample.by_color; Sample.is_new; Sample.by_price]
              eq_refl eq_refl eq_refl)
    as ((rs' & Hv & Hout & Hin & _) & Hincluded & _).
  exists rs'. split; [reflexivity|]. split; [exact Hv|].
  split; [|split; [|split; [|exact Hincluded]]].
  - apply Hout; decided.
  - apply Hin; decided.
  - apply Hin; decided.
Defined.

(** C8, on the category page rendered on the server. *)
Lemma cache_control_on_success_witness :
  ∃ view r',
    ProductList 900 Sample.category_page = Rendered view
    ∧ view_res view = Some r'
    ∧ headers r' !! "cache-control" = Some "max-age=900"
    ∧ headers r' !! "content-type" = Some "text/html"
    ∧ statusCode r' = 200%Z.
Proof.
  eexists.
  destruct (cache_control_on_success 900 Sample.category_page _
              Sample.html_response eq_refl eq_refl)
    as (r' & Hv & Hcc & Hother & Hstatus).
  exists r'. split; [reflexivity|]. split; [exact Hv|].
  split; [exact Hcc|]. split; [|exact Hstatus].
  rewrite Hother; [reflexivity|decided].
Defined.

(** C6: on /search without a query string the render returns with neither
    scope active: no free-text search, no category lookup, an empty query
    and an empty filter string. *)
Lemma neither_scope_active :
  ∃ view,
    ProductList 900 Sample.bare_search_page = Rendered view
    ∧ view_searchTabHeader view = false
    ∧ view_categoryEnabled view = false
    ∧ view_query view = ""
    ∧ view_filters view = ""
    ∧ ¬ (view_searchTabHeader view = true ∧ view_categoryEnabled view = false
         ∨ view_searchTabHeader view = false ∧ view_categoryEnabled view = true).
Proof.
  eexists. split; [reflexivity|]. simpl.
  repeat split. intros [[[=] _] | [_ [=]]].
Qed.

(** C6 as amended, on the search page and on the category page. *)
Lemma scope_at_most_one_witness :
  (∃ view,
     ProductList 900 Sample.search_page = Rendered view
     ∧ view_searchTabHeader view = true ∧ view_categoryEnabled view = false
     ∧ view_query view = "shirt")
  ∧ (∃ view,
       ProductList 900 Sample.category_page = Rendered view
       ∧ view_searchTabHeader view = false ∧ view_categoryEnabled view = true
       ∧ view_query view = "" ∧ view_filters view = "categories.id:mens").
Proof.
  split; eexists.
  - destruct (scope_at_most_one 900 Sample.search_page _ eq_refl)
      as (_ & Hsearch & _).
    assert ("shirt" ≠ "") as Hq by decided.
    destruct (Hsearch "shirt" eq_refl Hq) as (H1 & H2 & H3).
    split; [reflexivity|]. exact (conj H1 (conj H2 H3)).
  - destruct (scope_at_most_one 900 Sample.category_page _ eq_refl)
      as (_ & _ & Hcat).
    destruct (Hcat (or_introl eq_refl)) as (H1 & H2 & H3 & H4 & _).
    assert ("mens" ≠ "") as Hid by decided.
    split; [reflexivity|].
    exact (conj H1 (conj H3 (conj H2
             (H4 Sample.mens "mens" eq_refl eq_refl eq_refl Hid)))).
Defined.

(** C5, with a query active and on a category route. *)
Lemma resetFilters_target_witness :
  resetFilters Sample.count_refinements Sample.search_params (Some "shirt") None
  = [navigate "/search?refine=0"]
  ∧ resetFilters Sample.count_refinements Sample.search_params None (Some "mens")
    = [navigate "/category/mens?refine=0"].
Proof.
  split.
  - destruct (resetFilters_target Sample.count_refinements Sample.search_params
                (Some "shirt") None) as (p & Hrefine & _ & _ & Hsearch & _).
    rewrite (Hsearch eq_refl). unfold Sample.count_refinements.
    rewrite Hrefine. reflexivity.
  - destruct (resetFilters_target Sample.count_refinements Sample.search_params
                None (Some "mens")) as (p & Hrefine & _ & _ & _ & Hcat).
    rewrite (proj1 (Hcat eq_refl)). unfold Sample.count_refinements.
    rewrite Hrefine. reflexivity.
Defined.

(** ** Wishlist handlers *)
Section wishlist.
Implicit Types (c : Closure) (hit : Hit) (st : PageState) (rt : Runtime)
  (o : MutationOutcome) (options : MutationOptions).

(** The product's id after [setWishlistLoading([...wishlistLoading, id])]. *)
Lemma addItemToWishlist_loading c hit st :
  productId hit ∈ st_wishlistLoading (addItemToWishlist c hit st).1.
Proof.
  unfold addItemToWishlist. destruct (wishlist c); simpl; set_solver.
Qed.

Lemma removeItemFromWishlist_loading c hit st :
  productId hit ∈ st_wishlistLoading (removeItemFromWishlist c hit st).1.
Proof.
  unfold removeItemFromWishlist.
  destruct (wishlist c) as [w|]; [|simpl; set_solver].
  destruct (customerProductListItems w) as [items|]; [|simpl; set_solver].
  destruct (JS.find _ items); simpl; set_solver.
Qed.

(** Whatever the outcome and whatever the state by then, settling a
    mutation issued by a wishlist handler leaves the state without the
    product's id, and tells the user with one toast. *)
Lemma addItemToWishlist_settle c hit st request options o st' :
  (addItemToWishlist c hit st).2 = Awaiting request options →
  (productId hit ∉ st_wishlistLoading (settle o options st').1)
  ∧ st_filtersLoading (settle o options st').1 = st_filtersLoading st'
  ∧ ∃ t, (settle o options st').2 = [toast t]
         ∧ toast_status t = match o with
                            | Fulfilled => toast_success
                            | Rejected => toast_error
                            end.
Proof.
  unfold addItemToWishlist. destruct (wishlist c); [|done].
  intros [= <- <-]. destruct o; simpl.
  all: split; [rewrite list_elem_of_filter; tauto|]; split; [done|]; eauto.
Qed.

Lemma removeItemFromWishlist_settle c hit st request options o st' :
  (removeItemFromWishlist c hit st).2 = Awaiting request options →
  (productId hit ∉ st_wishlistLoading (settle o options st').1)
  ∧ st_filtersLoading (settle o options st').1 = st_filtersLoading st'
  ∧ ∃ t, (settle o options st').2 = [toast t]
         ∧ toast_status t = match o with
                            | Fulfilled => toast_success
                            | Rejected => toast_error
                            end.
Proof.
  unfold removeItemFromWishlist. destruct (wishlist c) as [w|]; [|done].
  destruct (customerProductListItems w) as [items|]; [|done].
  destruct (JS.find _ items); [|done].
  intros [= <- <-]. destruct o; simpl.
  all: split; [rewrite list_elem_of_filter; tauto|]; split; [done|]; eauto.
Qed.

(** What a toggle does to the loop: the handler's state, and either one
    request with its options queued, or a rejection and nothing queued. *)
Lemma pending_supersede (request : Request) (calls : list Call) :
  call_options <$> (supersede request <$> calls) = call_options <$> calls.
Proof.
  rewrite <- list_fmap_compose. apply list_fmap_ext. intros i call _.
  unfold supersede. simpl. by destruct (same_hook _ _).
Qed.

Lemma step_FavouriteToggle (w : option Wishlist) (customerId : string) rt hit
    (isFavourite : bool) :
  let c := {| wishlistLoading := st_wishlistLoading (page rt);
              wishlist := w; customerId := customerId |} in
  let started :=
    (if isFavourite then addItemToWishlist c else removeItemFromWishlist c)
      hit (page rt) in
  let next := step w customerId rt (FavouriteToggle hit isFavourite) in
  page next.1 = started.1
  ∧ effectDeps next.1 = effectDeps rt
  ∧ match started.2 with
    | Threw e => pending next.1 = pending rt ∧ next.2 = [reject e]
    | Awaiting request options =>
        pending next.1 = pending rt ++ [options] ∧ next.2 = [send request]
    end.
Proof.
  simpl.
  destruct ((if isFavourite then _ else _) hit (page rt)) as [st [e|request options]];
    [done|].
  simpl. split; [done|]. split; [done|]. split; [|done].
  unfold pending. simpl. by rewrite fmap_app, pending_supersede.
Qed.

(** The calls in flight after a toggle: a call that was issued is queued as
    the one its hook follows, and takes the hook away from the earlier calls
    on the same hook. *)
Lemma step_FavouriteToggle_inFlight (w : option Wishlist) (customerId : string)
    rt hit (isFavourite : bool) :
  let c := {| wishlistLoading := st_wishlistLoading (page rt);
              wishlist := w; customerId := customerId |} in
  let started :=
    (if isFavourite then addItemToWishlist c else removeItemFromWishlist c)
      hit (page rt) in
  let next := step w customerId rt (FavouriteToggle hit isFavourite) in
  inFlight next.1
  = match started.2 with
    | Threw e => inFlight rt
    | Awaiting request options =>
        (supersede request <$> inFlight rt)
        ++ [ {| call_request := request; call_options := options;
                call_observed := true |} ]
    end.
Proof.
  simpl.
  by destruct ((if isFavourite then _ else _) hit (page rt))
    as [st [e|request options]].
Qed.

(** What the settlement of a call in flight does. *)
Lemma step_Settled (w : option Wishlist) (customerId : string) rt (i : nat) o
    (call : Call) :
  inFlight rt !! i = Some call →
  let next := step w customerId rt (Settled i o) in
  let ran :=
    if call_observed call then settle o (call_options call) (page rt)
    else (page rt, []) in
  page next.1 = ran.1
  ∧ effectDeps next.1 = effectDeps rt
  ∧ inFlight next.1 = delete i (inFlight rt)
  ∧ pending next.1 = delete i (pending rt)
  ∧ next.2 = ran.2 ++ match o with
                      | Fulfilled => []
                      | Rejected => [reject JS.Rejection]
                      end.
Proof.
  intros Hi. simpl. rewrite Hi.
  destruct (if call_observed call then _ else _) as [st es].
  simpl. repeat split. unfold pending. simpl. apply list_fmap_delete.
Qed.

Lemma step_Settled_none (w : option Wishlist) (customerId : string) rt (i : nat) o :
  inFlight rt !! i = None → step w customerId rt (Settled i o) = (rt, []).
Proof. intros Hi. simpl. by rewrite Hi. Qed.

Lemma pending_lookup rt (i : nat) options :
  pending rt !! i = Some options
  ↔ ∃ call, inFlight rt !! i = Some call ∧ call_options call = options.
Proof.
  unfold pending. rewrite list_lookup_fmap, fmap_Some.
  split; intros (call & Hcall & Hoptions); eauto.
Qed.

Lemma app_singleton_ne {A} (l : list A) (x : A) : l ≠ l ++ [x].
Proof.
  intros H%(f_equal length). rewrite length_app in H. simpl in H. lia.
Qed.

(** C9. With a wishlist whose items are known, a toggle that routes to
    [removeItemFromWishlist] sends the delete request exactly when some item
    has the product's id, and then with the id of the first such item; when
    no item has it the handler rejects with a [TypeError], nothing is sent
    and nothing is queued. *)
Theorem removeItemFromWishlist_precondition (w : Wishlist)
    (items : list WishlistItem) (customerId : string) rt hit :
  customerProductListItems w = Some items →
  let next := step (Some w) customerId rt (FavouriteToggle hit false) in
  ((∃ i, i ∈ items ∧ item_productId i = productId hit) →
     ∃ i options,
       JS.find (λ i, item_productId i = productId hit) items = Some i
       ∧ i ∈ items ∧ item_productId i = productId hit
       ∧ next.2 = [send (deleteCustomerProductListItem customerId
                           (wishlist_id w) (item_id i))]
       ∧ pending next.1 = pending rt ++ [options])
  ∧ (¬ (∃ i, i ∈ items ∧ item_productId i = productId hit) →
       next.2 = [reject JS.TypeError]
       ∧ pending next.1 = pending rt
       ∧ productId hit ∈ st_wishlistLoading (page next.1)).
Proof.
  intros Hitems.
  destruct (step_FavouriteToggle (Some w) customerId rt hit false)
    as (Hpage & _ & Hstarted).
  cbv zeta in *. rewrite Hpage. clear Hpage. revert Hstarted.
  unfold removeItemFromWishlist. simpl. rewrite Hitems.
  destruct (JS.find _ items) as [i|] eqn:Hfind; simpl; intros [Hpending Hout].
  - split.
    + intros _. exists i. eexists. apply find_Some in Hfind as [? ?].
      by repeat split.
    + intros []. apply find_Some in Hfind as [? ?]. eauto.
  - split.
    + intros (i & Hin & Hi). apply find_None in Hfind.
      rewrite Forall_forall in Hfind. by destruct (Hfind i Hin).
    + intros _. repeat split; [done|done|]. set_solver.
Qed.

(** Without a wishlist, or with one that has no item list, the same toggle
    rejects before anything is sent. *)
Lemma removeItemFromWishlist_no_items (w : option Wishlist)
    (customerId : string) rt hit :
  (w ≫= customerProductListItems) = None →
  (step w customerId rt (FavouriteToggle hit false)).2 = [reject JS.TypeError].
Proof.
  simpl. unfold removeItemFromWishlist. simpl.
  destruct w as [w|]; [|done]. simpl. by intros ->.
Qed.

End wishlist.

(** C3. On a fresh page a tile toggles the favourite of the shirt and then,
    before that mutation has settled, another tile toggles the one of the tie
    the same way (both added, or both removed). The first toggle puts the
    shirt's id in [wishlistLoading]. When the shirt's mutation settles,
    fulfilled or rejected, no callback of its call runs, because the hook
    follows the later call: no notification is shown and the shirt's id stays
    in the list. It is still there when the second mutation has settled too
    and nothing is in flight any more. *)
Theorem wishlistLoading_kept_when_superseded (isFavourite : bool)
    (o1 o2 : MutationOutcome) :
  let rt1 :=
    (step (Some Sample.saved) "abk" mount
       (FavouriteToggle Sample.shirt isFavourite)).1 in
  let rt2 :=
    (step (Some Sample.saved) "abk" rt1
       (FavouriteToggle Sample.tie isFavourite)).1 in
  let settled1 := step (Some Sample.saved) "abk" rt2 (Settled 0 o1) in
  let settled2 := step (Some Sample.saved) "abk" settled1.1 (Settled 0 o2) in
  st_wishlistLoading (page rt1) = [productId Sample.shirt]
  ∧ length (pending rt2) = 2
  ∧ settled1.2 = match o1 with
                 | Fulfilled => []
                 | Rejected => [reject JS.Rejection]
                 end
  ∧ productId Sample.shirt ∈ st_wishlistLoading (page settled1.1)
  ∧ pending settled2.1 = []
  ∧ st_wishlistLoading (page settled2.1) = [productId Sample.shirt].
Proof.
  destruct isFavourite, o1, o2; cbv zeta;
    (split; [reflexivity|]); (split; [reflexivity|]); (split; [reflexivity|]);
    (split; [vm_compute; apply list_elem_of_here|]); split; reflexivity.
Qed.

(** C9, on the saved wishlist: the shirt is listed twice and the first
    item's id is used; a product that is not listed makes the handler
    reject. *)
Lemma removeItemFromWishlist_precondition_witness :
  (step (Some Sample.saved) "abk" mount (FavouriteToggle Sample.shirt false)).2
  = [send (deleteCustomerProductListItem "abk" "wl-1" "item-9")]
  ∧ (step (Some Sample.saved) "abk" mount
       (FavouriteToggle {| id := "x"; productId := "unlisted" |} false)).2
    = [reject JS.TypeError].
Proof.
  split.
  - destruct (removeItemFromWishlist_precondition Sample.saved _ "abk" mount
                Sample.shirt eq_refl) as [Hyes _].
    destruct Hyes as (i & options & Hfind & _ & _ & Hsent & _).
    { exists {| item_id := "item-9"; item_productId := "701643070756M" |}.
      split; [|reflexivity]. apply list_elem_of_further, list_elem_of_here. }
    rewrite Hsent. vm_compute in Hfind. by injection Hfind as <-.
  - destruct (removeItemFromWishlist_precondition Sample.saved _ "abk" mount
                {| id := "x"; productId := "unlisted" |} eq_refl) as [_ Hno].
    apply Hno. intros (i & Hin & Hi).
    repeat (apply elem_of_cons in Hin as [-> | Hin]; [discriminate Hi|]).
    by apply elem_of_nil in Hin.
Defined.

(** ** The event loop *)
Section event_loop.
Implicit Types (w : option Wishlist) (customerId : string) (rt : Runtime)
  (e : Event) (hit : Hit).

(** Two favourites in flight at once: the settlement of the first runs no
    callback, and the settlement of the second writes back the list its
    handler was created with, in which the first product was still
    loading. *)
Remark wishlistLoading_stale_closure :
  let rt :=
    (run (Some Sample.saved) "abk" mount
       [FavouriteToggle Sample.shirt true; FavouriteToggle Sample.tie true;
        Settled 0 Fulfilled; Settled 0 Fulfilled]).1 in
  pending rt = [] ∧ st_wishlistLoading (page rt) = [productId Sample.shirt].
Proof. by vm_compute. Qed.

Lemma handler_scroll_free (c : Closure) hit (isFavourite : bool)
    (st : PageState) request options :
  ((if isFavourite then addItemToWishlist c else removeItemFromWishlist c)
     hit st).2 = Awaiting request options →
  scroll_free options.
Proof.
  intros H o st' x y.
  assert (∃ t, (settle o options st').2 = [toast t]) as [t ->].
  { destruct isFavourite.
    - destruct (addItemToWishlist_settle _ _ _ _ _ o st' H)
        as (_ & _ & t & ? & _); eauto.
    - destruct (removeItemFromWishlist_settle _ _ _ _ _ o st' H)
        as (_ & _ & t & ? & _); eauto. }
  by intros [=]%list_elem_of_singleton.
Qed.

(** Every mutation in flight on a mounted page was issued by a wishlist
    handler, so none of them scrolls when it settles. *)
Lemma reachable_scroll_free rt : reachable rt → Forall scroll_free (pending rt).
Proof.
  induction 1 as [|w customerId rt e _ IH]; [by constructor|].
  destruct e as [isRefetching| |hit isFavourite|i o].
  - simpl. by case_decide.
  - done.
  - destruct (step_FavouriteToggle w customerId rt hit isFavourite)
      as (_ & _ & Hstarted). cbv zeta in Hstarted.
    match type of Hstarted with
    | match ?s with _ => _ end => destruct s as [err|request options] eqn:E
    end; destruct Hstarted as [-> _]; [done|].
    apply Forall_app. split; [done|]. apply Forall_singleton.
    by eapply handler_scroll_free.
  - destruct (inFlight rt !! i) as [call|] eqn:Hi.
    + destruct (step_Settled w customerId rt i o call Hi) as (_ & _ & _ & -> & _).
      by apply Forall_delete.
    + by rewrite step_Settled_none.
Qed.

(** C7, as amended. On a mounted page the only scroll is the one to the
    top, and a turn of the loop scrolls to the top exactly when it commits a
    render in which [isRefetching] is [true] after a commit in which it was
    not (or as the first commit), or when the pagination reports a page
    change. *)
Theorem scroll_reset_causes w customerId rt e :
  reachable rt →
  (∀ x y, scrollTo x y ∈ (step w customerId rt e).2 → x = 0%Z ∧ y = 0%Z)
  ∧ (scrollTo 0 0 ∈ (step w customerId rt e).2
     ↔ (e = Commit true ∧ effectDeps rt ≠ Some true) ∨ e = PageChange).
Proof.
  intros Hquiet%reachable_scroll_free.
  destruct e as [isRefetching| |hit isFavourite|i o].
  - simpl. case_decide as Hdeps; simpl.
    + split; [by intros x y ?%elem_of_nil|]. split; [by intros ?%elem_of_nil|].
      intros [[[= ->] ?]|[=]]. done.
    + destruct isRefetching; simpl.
      * split; [by intros x y [= -> ->]%list_elem_of_singleton|].
        split; [by left|]. intros _. apply list_elem_of_here.
      * split; [by intros x y ?%elem_of_nil|]. split; [by intros ?%elem_of_nil|].
        by intros [[[=] _]|[=]].
  - simpl. split; [by intros x y [= -> ->]%list_elem_of_singleton|].
    split; [by right|]. intros _. apply list_elem_of_here.
  - destruct (step_FavouriteToggle w customerId rt hit isFavourite)
      as (_ & _ & Hstarted). cbv zeta in Hstarted.
    match type of Hstarted with
    | match ?s with _ => _ end => destruct s as [err|request options]
    end; destruct Hstarted as [_ ->].
    all: split; [by intros x y [=]%list_elem_of_singleton|].
    all: split; [by intros [=]%list_elem_of_singleton|by intros [[[=] _]|[=]]].
  - assert (∀ x y, scrollTo x y ∉ (step w customerId rt (Settled i o)).2) as Hno.
    { intros x y. destruct (inFlight rt !! i) as [call|] eqn:Hi;
        [|rewrite step_Settled_none by done; apply not_elem_of_nil].
      destruct (step_Settled w customerId rt i o call Hi) as (_ & _ & _ & _ & ->).
      assert (pending rt !! i = Some (call_options call)) as Hoptions
        by (apply pending_lookup; eauto).
      pose proof (Forall_lookup_1 _ _ _ _ Hquiet Hoptions o (page rt) x y) as Hopt.
      cbv zeta. rewrite elem_of_app. intros [Hran|Hrej].
      - destruct (call_observed call); [done|by apply elem_of_nil in Hran].
      - destruct o; [by apply elem_of_nil in Hrej|].
        by apply list_elem_of_singleton in Hrej. }
    split; [intros x y H; by destruct (Hno x y)|].
    split; [intros H; by destruct (Hno 0%Z 0%Z)|by intros [[[=] _]|[=]]].
Qed.

End event_loop.

(** C7: after a first commit with [isRefetching = false], a page change
    scrolls to the top although [isRefetching] has not changed. *)
Lemma page_change_scrolls_without_refetch :
  let rt := (step None "abk" mount (Commit false)).1 in
  reachable rt
  ∧ effectDeps rt = Some false
  ∧ (step None "abk" rt PageChange).2 = [scrollTo 0 0]
  ∧ effectDeps (step None "abk" rt PageChange).1 = Some false
  ∧ ¬ (PageChange = Commit true ∧ effectDeps rt ≠ Some true).
Proof.
  split; [apply reachable_step, reachable_mount|].
  repeat split. by intros [[=] _].
Qed.

(** C7 as amended, on a fresh page: the first commit with
    [isRefetching = true] scrolls, a toggle does not. *)
Lemma scroll_reset_causes_witness :
  scrollTo 0 0 ∈ (step None "abk" mount (Commit true)).2
  ∧ scrollTo 0 0 ∉ (step None "abk" mount (FavouriteToggle Sample.shirt true)).2.
Proof.
  split.
  - apply (proj2 (scroll_reset_causes None "abk" mount (Commit true)
                    reachable_mount)).
    left. split; [reflexivity|discriminate].
  - intros H.
    apply (proj2 (scroll_reset_causes None "abk" mount
                    (FavouriteToggle Sample.shirt true) reachable_mount)) in H.
    destruct H as [[H _]|H]; discriminate H.
Defined.

(* ===================================================================== *)
(** * Part III: further properties of the components                     *)
(* ===================================================================== *)

Import Stdlib.Strings.Ascii.
Import SwatchImages SearchState.

(** ** What the swatch components render *)
Section swatch_render.
Implicit Types (product : Product) (vs : list Variant) (v : Variant).

Lemma map_renderSwatch vs :
  JS.map renderSwatch (Some <$> vs) = JS.Normal (colorCode <$> vs).
Proof.
  induction vs as [|v vs IH]; [done|]. rewrite !fmap_cons.
  change (JS.map renderSwatch (Some v :: ?l))
    with (match JS.map renderSwatch l with
          | JS.Throw e => JS.Throw e
          | JS.Normal ys => JS.Normal (colorCode v :: ys)
          end).
  by rewrite IH.
Qed.

(** X4. With at least one variant, the swatch row of [AlgoliaProductColors]
    (algolia-product-colors.jsx) throws exactly when no variant has the
    product's color; when it renders, the links go to the first variant of
    the product's color, then to the variants of every other color in source
    order. *)
Theorem render_throws_iff product vs :
  colorVariations product = Some vs → vs ≠ [] →
  (render product = JS.Throw JS.TypeError
   ↔ ∀ v, v ∈ vs → color v ≠ product_color product)
  ∧ (∀ codes, render product = JS.Normal codes →
       ∃ v, JS.find (λ c, color c = product_color product) vs = Some v
            ∧ codes = colorCode v
                      :: (colorCode
                            <$> filter (λ c, color c ≠ product_color product) vs)).
Proof.
  intros Hvs Hne. unfold render. rewrite Hvs.
  destruct vs as [|v0 vs0]; [done|]. set (vs := v0 :: vs0) in *.
  unfold sortColorVariations.
  destruct (JS.find (λ c, color c = product_color product) vs) as [v|] eqn:Hfind.
  - change (JS.map renderSwatch (Some v :: ?l))
      with (match JS.map renderSwatch l with
            | JS.Throw e => JS.Throw e
            | JS.Normal ys => JS.Normal (colorCode v :: ys)
            end).
    rewrite map_renderSwatch. split.
    + split; [done|]. intros Hall. apply find_Some in Hfind as [Hv Hin].
      by destruct (Hall v Hin).
    + intros codes [= <-]. eauto.
  - simpl. split; [|done]. split; [|done]. intros _ v Hin.
    apply find_None in Hfind. rewrite Forall_forall in Hfind. by apply Hfind.
Qed.

Lemma map_Throw {A B} (f : A → JS.Completion B) (l : list A) e :
  JS.map f l = JS.Throw e → ∃ x, x ∈ l ∧ f x = JS.Throw e.
Proof.
  induction l as [|x l IH]; [done|]. cbn [JS.map].
  destruct (f x) as [y|e1] eqn:Hx.
  - destruct (JS.map f l) as [ys|e2]; [done|]. intros [= ->].
    destruct IH as (x' & Hin & Hthrow); [done|].
    exists x'. split; [by apply list_elem_of_further|done].
  - intros [= ->]. exists x. split; [apply list_elem_of_here|done].
Qed.

Lemma map_Throw_elem {A B} (f : A → JS.Completion B) (l : list A) x e :
  x ∈ l → f x = JS.Throw e → ∃ e', JS.map f l = JS.Throw e'.
Proof.
  intros Hin Hthrow. induction l as [|x' l IH]; [by apply elem_of_nil in Hin|].
  cbn [JS.map]. destruct (f x') as [y|e1] eqn:Hx; [|by eauto].
  apply elem_of_cons in Hin as [->|Hin]; [congruence|].
  destruct (IH Hin) as [e' ->]. eauto.
Qed.

Lemma findSwatchImage_TypeError groups e :
  findSwatchImage groups = JS.Throw e → e = JS.TypeError.
Proof.
  induction groups as [|g groups IH]; [done|]. cbn [findSwatchImage].
  case_decide; [|done]. destruct (images g); [|done]. by intros [= <-].
Qed.

(** X26. With at least one variant, the swatch row of [AlgoliaProductSwatch]
    (algolia-product-swatch.jsx) throws exactly when no variant has the
    product's color or, for a variant it renders, [image_groups] is missing
    or the image lookup throws; what it throws is a [TypeError]. *)
Theorem renderImageSwatches_throws_iff product vs :
  colorVariations product = Some vs → vs ≠ [] →
  ((∃ e, renderImageSwatches product = JS.Throw e)
   ↔ (∀ v, v ∈ vs → color v ≠ product_color product)
     ∨ ∃ v, Some v ∈ sortColorVariations product (Some vs)
            ∧ (image_groups v = None
               ∨ ∃ groups e, image_groups v = Some groups
                             ∧ findSwatchImage groups = JS.Throw e))
  ∧ (∀ e, renderImageSwatches product = JS.Throw e → e = JS.TypeError).
Proof.
  intros Hvs Hne. unfold renderImageSwatches. rewrite Hvs.
  destruct vs as [|v0 vs0]; [done|]. set (vs := v0 :: vs0) in *.
  assert (Hswatch : ∀ x e, renderImageSwatch x = JS.Throw e →
            e = JS.TypeError
            ∧ (x = None
               ∨ ∃ v, x = Some v
                      ∧ (image_groups v = None
                         ∨ ∃ groups e, image_groups v = Some groups
                                       ∧ findSwatchImage groups = JS.Throw e))).
  { intros [v|] e; cbn [renderImageSwatch].
    - destruct (image_groups v) as [groups|] eqn:Hgroups.
      + destruct (findSwatchImage groups) as [link|e'] eqn:Himage; [done|].
        intros [= ->]. split; [by eapply findSwatchImage_TypeError|].
        right. exists v. split; [done|]. right. by exists groups, e.
      + intros [= <-]. split; [done|]. right. exists v. split; [done|]. by left.
    - intros [= <-]. eauto. }
  split; [split|].
  - intros [e (x & Hin & Hthrow)%map_Throw].
    destruct (Hswatch x e Hthrow) as [_ [->|(v & -> & Himage)]]; [|by eauto].
    left. unfold sortColorVariations in Hin.
    apply elem_of_cons in Hin as [Hfind|Hin].
    + symmetry in Hfind. apply find_None in Hfind.
      rewrite Forall_forall in Hfind. intros v Hv. by apply Hfind.
    + by apply list_elem_of_fmap in Hin as (v & ? & _).
  - intros [Hall|(v & Hin & Himage)].
    + apply (map_Throw_elem _ _ None JS.TypeError); [|done].
      unfold sortColorVariations.
      replace (JS.find (λ c, color c = product_color product) vs)
        with (@None Variant); [apply list_elem_of_here|].
      symmetry. apply find_None. rewrite Forall_forall. exact Hall.
    + destruct Himage as [Hnone|(groups & e & Hgroups & Himage)].
      * apply (map_Throw_elem _ _ (Some v) JS.TypeError); [done|].
        cbn [renderImageSwatch]. by rewrite Hnone.
      * apply (map_Throw_elem _ _ (Some v) e); [done|].
        cbn [renderImageSwatch]. by rewrite Hgroups, Himage.
  - intros e (x & _ & Hthrow)%map_Throw. by eapply Hswatch.
Qed.

End swatch_render.

Lemma render_throws_iff_witness :
  render Sample.green_shirt = JS.Throw JS.TypeError
  ∧ ∃ v, JS.find (λ c, color c = "Blue") [Sample.red; Sample.blue] = Some v
         ∧ ["B02"; "R01"]
           = colorCode v
             :: (colorCode <$> filter (λ c, color c ≠ "Blue") [Sample.red; Sample.blue]).
Proof.
  split.
  - apply (proj1 (render_throws_iff Sample.green_shirt [Sample.red; Sample.blue]
                    eq_refl ltac:(discriminate))).
    intros v [->|[->|[]%elem_of_nil]%elem_of_cons]%elem_of_cons; discriminate.
  - apply (proj2 (render_throws_iff Sample.blue_shirt [Sample.red; Sample.blue]
                    eq_refl ltac:(discriminate)) ["B02"; "R01"]).
    reflexivity.
Defined.

(** The product's color is listed, yet the row of image swatches throws: on
    the grey variant, whose swatch view has no image, and on the white one,
    which has no [image_groups]; the row of [AlgoliaProductColors] renders
    for the first of these products. With the product's color missing the
    row of image swatches throws as well. *)
Lemma renderImageSwatches_throws_iff_witness :
  renderImageSwatches Sample.blue_and_grey = JS.Throw JS.TypeError
  ∧ render Sample.blue_and_grey = JS.Normal ["B02"; "G05"]
  ∧ renderImageSwatches Sample.blue_and_plain = JS.Throw JS.TypeError
  ∧ renderImageSwatches Sample.green_shirt = JS.Throw JS.TypeError.
Proof.
  split; [|split; [reflexivity|split]].
  - destruct (renderImageSwatches_throws_iff Sample.blue_and_grey
                [Sample.grey; Sample.blue] eq_refl ltac:(discriminate))
      as [Hiff Htype].
    destruct (proj2 Hiff) as [e He].
    { right. exists Sample.grey. split; [decided|].
      right. by exists [ {| view_type := "swatch"; images := [] |} ], JS.TypeError. }
    by rewrite <-(Htype e He).
  - destruct (renderImageSwatches_throws_iff Sample.blue_and_plain
                [Sample.blue; Sample.plain] eq_refl ltac:(discriminate))
      as [Hiff Htype].
    destruct (proj2 Hiff) as [e He].
    { right. exists Sample.plain. split; [decided|]. by left. }
    by rewrite <-(Htype e He).
  - destruct (renderImageSwatches_throws_iff Sample.green_shirt
                [Sample.red; Sample.blue] eq_refl ltac:(discriminate))
      as [Hiff Htype].
    destruct (proj2 Hiff) as [e He].
    { left.
      intros v [->|[->|[]%elem_of_nil]%elem_of_cons]%elem_of_cons; discriminate. }
    by rewrite <-(Htype e He).
Defined.

Lemma sortColorVariations_present_once_witness :
  sortColorVariations Sample.blue_shirt (Some [Sample.red; Sample.blue])
  = [Some Sample.blue; Some Sample.red].
Proof.
  apply (sortColorVariations_present_once Sample.blue_shirt [Sample.red]
           Sample.blue []); [reflexivity| |].
  - apply Forall_singleton. discriminate.
  - apply Forall_nil_2.
Defined.

Lemma sortColorVariations_absent_witness :
  sortColorVariations Sample.green_shirt (Some [Sample.red; Sample.blue])
  = [None; Some Sample.red; Some Sample.blue].
Proof.
  apply (sortColorVariations_absent Sample.green_shirt [Sample.red; Sample.blue]).
  repeat (apply Forall_cons; split; [discriminate|]). apply Forall_nil_2.
Defined.

(** ** Hovering a swatch *)
Section hover.
Implicit Types (product : Product) (selectedColors : SelectedColors)
  (image_groups : list ImageGroup) (update : option SelectedColors).

(** X5. When the hover handler returns, the selection held by the parent maps
    the product's master id to the first image of the variant's first image
    group, and every other product keeps its entry. *)
Theorem handleSetSelectedColors_result product selectedColors image_groups update :
  handleSetSelectedColors product selectedColors image_groups = JS.Normal update →
  ∃ newPhotoUrl,
    firstImageLink image_groups = JS.Normal newPhotoUrl
    ∧ afterHover selectedColors update !! masterID product = Some (Some newPhotoUrl)
    ∧ ∀ key, key ≠ masterID product →
        afterHover selectedColors update !! key = selectedColors !! key.
Proof.
  unfold handleSetSelectedColors.
  destruct (firstImageLink image_groups) as [newPhotoUrl|]; [|done].
  intros H. exists newPhotoUrl. split; [done|].
  destruct (JS.truthy _) eqn:Htruthy; case_decide as Hcmp;
    injection H as <-; unfold afterHover; simpl.
  - split; [apply lookup_insert_eq|]. intros key Hkey. by apply lookup_insert_ne.
  - by split.
  - split; [apply lookup_insert_eq|]. intros key Hkey.
    by rewrite !lookup_insert_ne.
  - by rewrite lookup_insert_eq in Hcmp.
Qed.

(** X6. The handler leaves the state alone exactly when the product already
    shows that image and the link is not empty: with an empty link every
    hover calls [setSelectedColors]. *)
Theorem handleSetSelectedColors_no_update product selectedColors image_groups :
  handleSetSelectedColors product selectedColors image_groups = JS.Normal None
  ↔ ∃ newPhotoUrl,
      firstImageLink image_groups = JS.Normal newPhotoUrl
      ∧ newPhotoUrl ≠ ""
      ∧ selectedColors !! masterID product = Some (Some newPhotoUrl).
Proof.
  unfold handleSetSelectedColors. split.
  - destruct (firstImageLink image_groups) as [newPhotoUrl|]; [|done].
    destruct (JS.truthy _) eqn:Htruthy; case_decide as Hcmp; try done.
    + intros _. exists newPhotoUrl.
      rewrite <- Hcmp in Htruthy. simpl in Htruthy.
      apply bool_decide_eq_true in Htruthy. done.
    + by rewrite lookup_insert_eq in Hcmp.
  - intros (newPhotoUrl & -> & Hne & Hsel). rewrite Hsel. simpl.
    rewrite bool_decide_true by done. rewrite Hsel.
    by rewrite decide_False by (intros H; by apply H).
Qed.

(** X7. Hovering the same swatch again changes nothing, provided its image link
    is not empty. *)
Theorem handleSetSelectedColors_twice product selectedColors image_groups
    update newPhotoUrl :
  handleSetSelectedColors product selectedColors image_groups = JS.Normal update →
  firstImageLink image_groups = JS.Normal newPhotoUrl →
  newPhotoUrl ≠ "" →
  handleSetSelectedColors product (afterHover selectedColors update) image_groups
  = JS.Normal None.
Proof.
  intros H Hlink Hne. unfold handleSetSelectedColors in *.
  rewrite Hlink in *.
  assert (∀ m : SelectedColors,
            m !! masterID product = Some (Some newPhotoUrl) →
            (if JS.truthy (mjoin (m !! masterID product)) then m
             else <[masterID product := None]> m) = m) as Hkeep.
  { intros m ->. simpl. by rewrite bool_decide_true. }
  destruct (JS.truthy _) eqn:Htruthy; case_decide as Hcmp;
    injection H as <-; unfold afterHover; simpl.
  - rewrite Hkeep by apply lookup_insert_eq.
    by rewrite lookup_insert_eq, decide_False by (intros Hx; by apply Hx).
  - rewrite Hkeep by done.
    by rewrite <- Hcmp, decide_False by (intros Hx; by apply Hx).
  - rewrite Hkeep by apply lookup_insert_eq.
    by rewrite lookup_insert_eq, decide_False by (intros Hx; by apply Hx).
  - by rewrite lookup_insert_eq in Hcmp.
Qed.


(** X9. The swatch background: the first image of the first image group of view
    type "swatch"; the empty link when there is no such group. A first
    swatch group without image makes the lookup throw, whatever follows. *)
Theorem findSwatchImage_first_swatch image_groups :
  ((∀ group, group ∈ image_groups → view_type group ≠ "swatch") →
   findSwatchImage image_groups = JS.Normal "")
  ∧ (∀ before group after,
       image_groups = before ++ group :: after →
       (∀ g, g ∈ before → view_type g ≠ "swatch") →
       view_type group = "swatch" →
       findSwatchImage image_groups
       = match images group with
         | [] => JS.Throw JS.TypeError
         | image :: _ => JS.Normal (dis_base_link image)
         end).
Proof.
  split.
  - induction image_groups as [|g gs IH]; [done|]. intros Hall. simpl.
    rewrite decide_False by (apply Hall; left). apply IH.
    intros group Hin. apply Hall. by right.
  - intros before group after -> Hbefore Hgroup.
    induction before as [|g before IH]; simpl.
    + by rewrite decide_True.
    + rewrite decide_False by (apply Hbefore; left). apply IH.
      intros g' Hin. apply Hbefore. by right.
Qed.

End hover.

Lemma handleSetSelectedColors_result_witness :
  ∃ update,
    handleSetSelectedColors Sample.blue_shirt Sample.hovered Sample.blue_images
    = JS.Normal update
    ∧ afterHover Sample.hovered update !! "25517823M"
      = Some (Some "https://img.example/blue-large.jpg")
    ∧ afterHover Sample.hovered update !! "25720424M" = Some None.
Proof.
  eexists. split; [reflexivity|].
  destruct (handleSetSelectedColors_result Sample.blue_shirt Sample.hovered
              Sample.blue_images _ eq_refl) as (url & Hurl & Hset & Hother).
  injection Hurl as <-. split; [exact Hset|].
  rewrite Hother; [reflexivity|discriminate].
Defined.

Lemma handleSetSelectedColors_twice_witness :
  ∃ update,
    handleSetSelectedColors Sample.blue_shirt Sample.hovered Sample.blue_images
    = JS.Normal update
    ∧ handleSetSelectedColors Sample.blue_shirt
        (afterHover Sample.hovered update) Sample.blue_images
      = JS.Normal None.
Proof.
  eexists. split; [reflexivity|].
  apply (handleSetSelectedColors_twice Sample.blue_shirt Sample.hovered
           Sample.blue_images _ "https://img.example/blue-large.jpg"
           eq_refl eq_refl).
  discriminate.
Defined.

Lemma findSwatchImage_first_swatch_witness :
  findSwatchImage Sample.blue_images
  = JS.Normal "https://img.example/blue-swatch.jpg"
  ∧ findSwatchImage (take 1 Sample.blue_images) = JS.Normal "".
Proof.
  split.
  - apply (proj2 (findSwatchImage_first_swatch Sample.blue_images)
             (take 1 Sample.blue_images) _ (drop 2 Sample.blue_images) eq_refl);
      [|reflexivity].
    intros g [->|[]%elem_of_nil]%elem_of_cons. discriminate.
  - apply (proj1 (findSwatchImage_first_swatch (take 1 Sample.blue_images))).
    intros g [->|[]%elem_of_nil]%elem_of_cons. discriminate.
Defined.

(** ** The value of the [Sort] select *)
Section sort_value.
Lemma resetOffset_unfold l :
  resetOffset l
  = if offsetAt l then take 6 l ++ chars "=0" ++ dropDigits (drop 8 l)
    else match l with [] => [] | c :: l' => c :: resetOffset l' end.
Proof. by destruct l. Qed.

Lemma offsetAt_take l : offsetAt (take 8 l) = offsetAt l.
Proof.
  unfold offsetAt. rewrite take_take, !lookup_take_lt by lia. done.
Qed.

Lemma offsetAt_inv l :
  offsetAt l = true →
  ∃ d, toLowerCase_ascii <$> take 6 l = chars "offset"
       ∧ length (take 6 l) = 6
       ∧ isDigit d = true
       ∧ l = take 6 l ++ chars "=" ++ d :: drop 8 l.
Proof.
  unfold offsetAt. intros [[Hkw Heq]%andb_true_iff Hd]%andb_true_iff.
  apply bool_decide_eq_true in Hkw, Heq.
  destruct (l !! 7) as [d|] eqn:H7; [|done]. simpl in Hd.
  exists d. split; [done|].
  split; [by rewrite <- (length_fmap toLowerCase_ascii), Hkw|].
  split; [done|].
  rewrite <- (take_drop 6 l) at 1. f_equal.
  rewrite (drop_S _ _ _ Heq), (drop_S _ _ _ H7). done.
Qed.

Lemma offsetAt_intro kw d t :
  toLowerCase_ascii <$> kw = chars "offset" → isDigit d = true →
  offsetAt (kw ++ chars "=" ++ d :: t) = true
  ∧ take 6 (kw ++ chars "=" ++ d :: t) = kw
  ∧ drop 8 (kw ++ chars "=" ++ d :: t) = t.
Proof.
  intros Hkw Hd.
  assert (length kw = 6) as Hlen
    by (by rewrite <- (length_fmap toLowerCase_ascii), Hkw).
  assert (take 6 (kw ++ chars "=" ++ d :: t) = kw) as Htake
    by (by apply take_app_length').
  split; [|split; [done|]].
  - unfold offsetAt. rewrite Htake, bool_decide_true by done.
    simpl (String.list_ascii_of_string _). simpl (_ ++ _ :: _).
    rewrite (list_lookup_middle kw _ _ 6) by done.
    rewrite bool_decide_true by done. simpl.
    rewrite lookup_app_r by lia. rewrite Hlen. simpl. done.
  - rewrite drop_app_ge by lia. rewrite Hlen. done.
Qed.

Lemma dropDigits_idemp l : dropDigits (dropDigits l) = dropDigits l.
Proof.
  induction l as [|c l IH]; [done|]. simpl.
  destruct (isDigit c) eqn:E; [done|]. simpl. by rewrite E.
Qed.

Lemma take7_resetOffset l : take 7 (resetOffset l) = take 7 l.
Proof.
  induction l as [|c l IH]; [done|].
  rewrite resetOffset_unfold. destruct (offsetAt (c :: l)) eqn:E.
  - apply offsetAt_inv in E as (d & _ & Hlen & _ & Hl).
    rewrite Hl at 3. 
    rewrite !(take_app_add' _ _ 6 1) by done. done.
  - change (take 7 (c :: ?x)) with (c :: take 6 x). f_equal.
    by rewrite <- (take_take _ 6 7 : take 6 (take 7 _) = take 6 _), IH, take_take.
Qed.

Lemma offsetAt_cons_resetOffset c l :
  offsetAt (c :: resetOffset l) = offsetAt (c :: l).
Proof.
  rewrite <- (offsetAt_take (c :: resetOffset l)), <- (offsetAt_take (c :: l)).
  change (take 8 (c :: ?x)) with (c :: take 7 x). by rewrite take7_resetOffset.
Qed.

Lemma offsetAt_app l k : 8 ≤ length l → offsetAt (l ++ k) = offsetAt l.
Proof. intros. by rewrite <- offsetAt_take, take_app_le, offsetAt_take. Qed.

(** X13. Resetting the offset of a path whose offset was reset changes
    nothing. *)
Theorem resetOffset_idempotent l : resetOffset (resetOffset l) = resetOffset l.
Proof.
  induction l as [|c l IH]; [done|].
  rewrite (resetOffset_unfold (c :: l)). destruct (offsetAt (c :: l)) eqn:E.
  - apply offsetAt_inv in E as (d & Hkw & _ & _ & _).
    destruct (offsetAt_intro (take 6 (c :: l)) "0"%char (dropDigits (drop 8 (c :: l)))
                Hkw eq_refl) as (Hat & Htake & Hdrop).
    set (t := dropDigits (drop 8 (c :: l))) in *.
    change (chars "=0" ++ t) with (chars "=" ++ "0"%char :: t).
    rewrite resetOffset_unfold, Hat, Htake, Hdrop.
    subst t. by rewrite dropDigits_idemp.
  - rewrite resetOffset_unfold, offsetAt_cons_resetOffset, E. by rewrite IH.
Qed.

(** X14. A path in which [offset=<digits>] does not occur, in any capitalisation,
    is the value of the select as it is. *)
Theorem resetOffset_no_match l : containsOffset l = false → resetOffset l = l.
Proof.
  induction l as [|c l IH]; [done|]. simpl.
  intros [-> H]%orb_false_iff. by rewrite IH.
Qed.

(** X15. In a path whose first [offset=<digits>] comes after [pre], the digits of
    that occurrence, all of them, are replaced by [0]; the keyword keeps its
    capitalisation, and the text before and after, later offsets included,
    is kept. *)
Theorem resetOffset_first_match pre kw d t :
  containsOffset (pre ++ kw ++ chars "=") = false →
  toLowerCase_ascii <$> kw = chars "offset" →
  isDigit d = true →
  resetOffset (pre ++ kw ++ chars "=" ++ d :: t)
  = pre ++ kw ++ chars "=0" ++ dropDigits t.
Proof.
  intros Hpre Hkw Hd.
  assert (length kw = 6) as Hlen
    by (by rewrite <- (length_fmap toLowerCase_ascii), Hkw).
  induction pre as [|c pre IH].
  - rewrite !app_nil_l.
    destruct (offsetAt_intro kw d t Hkw Hd) as (Hat & Htake & Hdrop).
    by rewrite resetOffset_unfold, Hat, Htake, Hdrop.
  - simpl in Hpre. apply orb_false_iff in Hpre as [Hhere Hpre].
    rewrite <- app_comm_cons, resetOffset_unfold.
    assert (offsetAt (c :: pre ++ kw ++ chars "=" ++ d :: t) = false) as ->.
    { replace (c :: pre ++ kw ++ chars "=" ++ d :: t)
        with ((c :: pre ++ kw ++ chars "=") ++ d :: t)
        by (simpl; by rewrite <- !(assoc_L (++))).
      rewrite offsetAt_app; [done|].
      simpl. rewrite !length_app, Hlen. simpl. lia. }
    by rewrite IH.
Qed.

End sort_value.

(** ** Search parameters, sorting options, clicks and filters *)
Section search_state.
Implicit Types (searchParams : SearchParams) (categoryId : option string).

(** X10. On a route with a category id the product search is refined by
    [cgid=<id>], appended to the refinements of the URL, whether or not a
    query is present; every other parameter is passed on as it is. Without
    an array under [_refine] the render throws. *)
Theorem productSearchParameters_category (cid : string) searchParams :
  cid ≠ "" →
  (∀ _refine, searchParams !! "_refine" = Some (PList _refine) →
     ∃ parameters,
       productSearchParameters (Some cid) searchParams = JS.Normal parameters
       ∧ parameters !! "refine" = Some (PList (_refine ++ ["cgid=" +:+ cid]))
       ∧ ∀ key, key ≠ "refine" → key ≠ "_refine" →
           parameters !! key = searchParams !! key)
  ∧ ((∀ _refine, searchParams !! "_refine" ≠ Some (PList _refine)) →
       productSearchParameters (Some cid) searchParams = JS.Throw JS.TypeError).
Proof.
  intros Hcid. unfold productSearchParameters, pushCategoryRefinement. simpl.
  rewrite bool_decide_true by done. split.
  - intros _refine ->. eexists. split; [done|]. unfold withRefine.
    rewrite lookup_insert_eq. split; [apply lookup_insert_eq|].
    intros key H1 H2. by rewrite !lookup_insert_ne.
  - intros Hno. destruct (searchParams !! "_refine") as [[| |l]|]; try done.
    by destruct (Hno l).
Qed.

(** X11. Without a category id in the route nothing is pushed: the search is
    refined by what the URL carries under [_refine], and every other
    parameter is passed on as it is. *)
Theorem productSearchParameters_no_category categoryId searchParams :
  JS.truthy categoryId = false →
  ∃ parameters,
    productSearchParameters categoryId searchParams = JS.Normal parameters
    ∧ parameters !! "refine" = searchParams !! "_refine"
    ∧ ∀ key, key ≠ "refine" → parameters !! key = searchParams !! key.
Proof.
  intros Hcat. unfold productSearchParameters, pushCategoryRefinement.
  rewrite Hcat. eexists. split; [done|]. unfold withRefine.
  destruct (searchParams !! "_refine") as [v|] eqn:E.
  - split; [apply lookup_insert_eq|]. intros key Hkey. by apply lookup_insert_ne.
  - split; [apply lookup_delete_eq|]. intros key Hkey. by apply lookup_delete_ne.
Qed.

(** X12. The sorting option shown as selected is always one of the options: the
    first one with the selected id when there is one, the first option
    otherwise; it is missing only when there are no options. *)
Theorem selectedSortingOptionLabel_spec (sortingOptions : option (list SortingOption))
    (selected : option string) :
  (selectedSortingOptionLabel sortingOptions selected = None
   ↔ sortingOptions = None ∨ sortingOptions = Some [])
  ∧ (∀ option, selectedSortingOptionLabel sortingOptions selected = Some option →
       ∃ options, sortingOptions = Some options
         ∧ option ∈ options
         ∧ (Some (option_id option) = selected
            ∨ (head options = Some option
               ∧ ∀ o, o ∈ options → Some (option_id o) ≠ selected))).
Proof.
  unfold selectedSortingOptionLabel.
  destruct sortingOptions as [options|]; [|split; [split; [by left|done]|done]].
  destruct (JS.find _ options) as [o|] eqn:Hfind.
  - apply find_Some in Hfind as [Ho Hin]. split.
    + split; [done|]. intros [[=]|[= ->]]. by apply elem_of_nil in Hin.
    + intros option [= <-]. eauto.
  - apply find_None in Hfind. rewrite Forall_forall in Hfind. split.
    + rewrite head_None. split; [intros ->; by right|by intros [[=]|[= ->]]].
    + intros option Hhead. exists options. split; [done|].
      split; [by apply head_Some_elem_of|]. right. eauto.
Qed.

(** X16. A click on a tile always reports the Algolia click of that hit first,
    and then at most one Einstein click: a search click with the non-empty
    query, or else a category click with a category that is known. Einstein
    never receives an empty query or an undefined category. *)
Theorem onClick_beacons (searchQuery : option string) (category : option Category)
    (hit : Hit) :
  ∃ einstein,
    onClick searchQuery category hit
    = sendEvent "click" hit "Product Clicked" :: einstein
    ∧ length einstein ≤ 1
    ∧ (∀ beacon, beacon ∈ einstein →
         (beacon = sendClickSearch searchQuery hit
          ∧ ∃ q, searchQuery = Some q ∧ q ≠ "")
         ∨ (beacon = sendClickCategory category hit
            ∧ JS.truthy searchQuery = false ∧ is_Some category))
    ∧ (einstein = [] ↔ JS.truthy searchQuery = false ∧ category = None).
Proof.
  unfold onClick. eexists. split; [done|].
  destruct (JS.truthy searchQuery) eqn:Hq.
  - split; [simpl; lia|]. split.
    + intros beacon ->%list_elem_of_singleton. left. split; [done|].
      destruct searchQuery as [q|]; [|done]. exists q. split; [done|].
      by apply bool_decide_eq_true in Hq.
    + split; [done|]. by intros [[=] _].
  - destruct category as [c|]; simpl.
    + split; [lia|]. split.
      * intros beacon ->%list_elem_of_singleton. right. eauto.
      * split; [done|]. by intros [_ [=]].
    + split; [lia|]. split; [by intros beacon ?%elem_of_nil|done].
Qed.

(** X17. The filter string given to Algolia is either empty or [categories.id:]
    followed by the non-empty id of the category at hand, and the latter
    only when the product search is not loading: it never names an
    undefined or empty id. *)
Theorem filters_well_formed (isLoading : bool) (category : option Category) :
  filters isLoading category = ""
  ∨ ∃ c cid,
      category = Some c ∧ category_id c = Some cid ∧ cid ≠ ""
      ∧ isLoading = false
      ∧ filters isLoading category = "categories.id:" +:+ cid.
Proof.
  unfold filters. destruct isLoading; [by left|].
  destruct category as [c|]; [|by left]. simpl.
  destruct (category_id c) as [cid|] eqn:E; [|by left]. simpl.
  case_bool_decide; [|by left]. right. exists c, cid. by rewrite E.
Qed.

(** X18. The disallow list is applied to the cached result on every render:
    applying it again changes nothing. *)
Theorem applyDisallowList_idempotent (result : option ProductSearchResult) :
  applyDisallowList (applyDisallowList result) = applyDisallowList result.
Proof.
  destruct result as [[[rs|] n]|]; [|done|done]. simpl. do 3 f_equal.
  rewrite list_filter_filter. apply list_filter_iff. tauto.
Qed.

End search_state.

(** ** Invariants of the event loop *)
Section loop_invariants.
Implicit Types (w : option Wishlist) (customerId : string) (rt : Runtime)
  (e : Event) (hit : Hit) (o : MutationOutcome) (options : MutationOptions).

(** What settling does for options issued by a wishlist handler: it writes
    back the list the handler closed over, without the product's id, and
    shows one toast. *)
Lemma issued_for_settle pid options :
  issued_for pid options →
  ∃ captured, ∀ o st,
    ∃ t, settle o options st
         = (setWishlistLoading (filter (λ id, id ≠ pid) captured) st, [toast t])
         ∧ toast_status t = match o with
                            | Fulfilled => toast_success
                            | Rejected => toast_error
                            end.
Proof.
  intros (c & hit & isFavourite & st0 & request & <- & H).
  exists (wishlistLoading c). intros o st. destruct isFavourite.
  - unfold addItemToWishlist in H. destruct (wishlist c); [|done].
    simpl in H. injection H as <- <-. destruct o; simpl; eauto.
  - unfold removeItemFromWishlist in H. destruct (wishlist c) as [wl|]; [|done].
    destruct (customerProductListItems wl) as [items|]; [|done].
    destruct (JS.find _ items); [|done].
    simpl in H. injection H as <- <-. destruct o; simpl; eauto.
Qed.

Lemma toggle_issued w customerId rt hit (isFavourite : bool) options :
  pending (step w customerId rt (FavouriteToggle hit isFavourite)).1
  = pending rt ++ [options] →
  issued_for (productId hit) options.
Proof.
  intros Hpending.
  destruct (step_FavouriteToggle w customerId rt hit isFavourite)
    as (_ & _ & Hstarted). cbv zeta in Hstarted.
  match type of Hstarted with
  | match ?s with _ => _ end => destruct s as [err|request options'] eqn:E
  end; destruct Hstarted as [Hq _]; rewrite Hq in Hpending.
  - by apply app_singleton_ne in Hpending.
  - apply (inj (app _)) in Hpending as [= ->]. do 5 eexists. eauto.
Qed.

(** Every mutation in flight on a mounted page was issued by one of the two
    wishlist handlers. *)
Lemma reachable_issued rt : reachable rt → Forall issued (pending rt).
Proof.
  induction 1 as [|w customerId rt e _ IH]; [by constructor|].
  destruct e as [isRefetching| |hit isFavourite|i o].
  - simpl. by case_decide.
  - done.
  - destruct (step_FavouriteToggle w customerId rt hit isFavourite)
      as (_ & _ & Hstarted). cbv zeta in Hstarted.
    match type of Hstarted with
    | match ?s with _ => _ end => destruct s as [err|request options] eqn:E
    end; destruct Hstarted as [Hq _]; rewrite Hq; [done|].
    apply Forall_app. split; [done|]. apply Forall_singleton.
    exists (productId hit). eapply toggle_issued. by rewrite Hq.
  - destruct (inFlight rt !! i) as [call|] eqn:Hi.
    + destruct (step_Settled w customerId rt i o call Hi) as (_ & _ & _ & -> & _).
      by apply Forall_delete.
    + by rewrite step_Settled_none.
Qed.

(** A settlement never touches [filtersLoading] on a mounted page, whether
    the callbacks of the call run or not. *)
Lemma settled_filtersLoading w customerId rt (i : nat) o :
  reachable rt →
  st_filtersLoading (page (step w customerId rt (Settled i o)).1)
  = st_filtersLoading (page rt).
Proof.
  intros Hreach%reachable_issued.
  destruct (inFlight rt !! i) as [call|] eqn:Hi;
    [|by rewrite step_Settled_none].
  destruct (step_Settled w customerId rt i o call Hi) as (-> & _).
  destruct (call_observed call); [|done].
  assert (pending rt !! i = Some (call_options call)) as Hoptions
    by (apply pending_lookup; eauto).
  destruct (Forall_lookup_1 _ _ _ _ Hreach Hoptions) as [pid Hissued].
  destruct (issued_for_settle _ _ Hissued) as [captured Hsettle].
  by destruct (Hsettle o (page rt)) as (t & -> & _).
Qed.

(** X19. On a mounted page [filtersLoading] is the [isRefetching] of the last
    commit in which that value changed, hence of the last commit; before the
    first commit it is [false]. No wishlist activity disturbs it. *)
Theorem filtersLoading_follows_isRefetching rt :
  reachable rt → st_filtersLoading (page rt) = default false (effectDeps rt).
Proof.
  induction 1 as [|w customerId rt e Hreach IH]; [done|].
  destruct e as [isRefetching| |hit isFavourite|i o].
  - simpl. by case_decide.
  - done.
  - destruct (step_FavouriteToggle w customerId rt hit isFavourite)
      as (Hpage & -> & _). cbv zeta in Hpage. rewrite Hpage, <- IH.
    destruct isFavourite.
    + unfold addItemToWishlist. by destruct (wishlist _).
    + unfold removeItemFromWishlist. simpl. destruct w as [wl|]; [|done].
      simpl. destruct (customerProductListItems wl) as [items|]; [|done].
      by destruct (JS.find _ items).
  - rewrite settled_filtersLoading, IH by done.
    destruct (inFlight rt !! i) as [call|] eqn:Hi;
      [|by rewrite step_Settled_none].
    by destruct (step_Settled w customerId rt i o call Hi) as (_ & -> & _).
Qed.

(** X20. On a mounted page, when the mutation of a call in flight settles:
    if the call is still followed by its hook, exactly one toast is shown, a
    success toast when it was fulfilled and an error toast when it was
    rejected; if a later call on the same hook took its place, nothing is
    shown and the component state is left as it is. In both cases the
    handler's promise rejects when the mutation was rejected, the call
    leaves the queue, and [filtersLoading] and the effect's dependency stay
    as they were. *)
Theorem settlement_effects w customerId rt (i : nat) o (call : Call) :
  reachable rt →
  inFlight rt !! i = Some call →
  let next := step w customerId rt (Settled i o) in
  let rejection :=
    match o with
    | Fulfilled => []
    | Rejected => [reject JS.Rejection]
    end in
  (if call_observed call
   then ∃ t, next.2 = toast t :: rejection
             ∧ toast_status t = match o with
                                | Fulfilled => toast_success
                                | Rejected => toast_error
                                end
   else next.2 = rejection ∧ page next.1 = page rt)
  ∧ pending next.1 = delete i (pending rt)
  ∧ st_filtersLoading (page next.1) = st_filtersLoading (page rt)
  ∧ effectDeps next.1 = effectDeps rt.
Proof.
  intros Hreach Hi. cbv zeta.
  rewrite settled_filtersLoading by done.
  apply reachable_issued in Hreach.
  destruct (step_Settled w customerId rt i o call Hi)
    as (Hpage & -> & _ & -> & ->).
  split; [|done]. cbv zeta in *.
  destruct (call_observed call); [|done].
  assert (pending rt !! i = Some (call_options call)) as Hoptions
    by (apply pending_lookup; eauto).
  destruct (Forall_lookup_1 _ _ _ _ Hreach Hoptions) as [pid Hissued].
  destruct (issued_for_settle _ _ Hissued) as [captured Hsettle].
  destruct (Hsettle o (page rt)) as (t & -> & Ht). by exists t.
Qed.

(** X21. A toggle whose mutation settles before anything else happens leaves the
    loading list as it was before the toggle, without the product's id, and
    the queue, [filtersLoading] and the effect's dependency as they were. *)
Theorem toggle_then_settle w customerId rt hit (isFavourite : bool) options
    (w' : option Wishlist) (customerId' : string) o :
  let rt1 := (step w customerId rt (FavouriteToggle hit isFavourite)).1 in
  pending rt1 = pending rt ++ [options] →
  let rt2 := (step w' customerId' rt1 (Settled (length (pending rt)) o)).1 in
  st_wishlistLoading (page rt2)
  = filter (λ id, id ≠ productId hit) (st_wishlistLoading (page rt))
  ∧ pending rt2 = pending rt
  ∧ st_filtersLoading (page rt2) = st_filtersLoading (page rt)
  ∧ effectDeps rt2 = effectDeps rt.
Proof.
  intros rt1 Hpending.
  destruct (step_FavouriteToggle w customerId rt hit isFavourite)
    as (Hpage & Hdeps & Hstarted). cbv zeta in *. fold rt1 in Hpage, Hdeps, Hstarted.
  match type of Hstarted with
  | match ?s with _ => _ end => destruct s as [err|request options'] eqn:E
  end; destruct Hstarted as [Hq _]; rewrite Hq in Hpending.
  { by apply app_singleton_ne in Hpending. }
  apply (inj (app _)) in Hpending as [= ->].
  pose proof (step_FavouriteToggle_inFlight w customerId rt hit isFavourite)
    as Hcalls. cbv zeta in Hcalls. fold rt1 in Hcalls. rewrite E in Hcalls.
  assert (inFlight rt1 !! length (pending rt)
          = Some {| call_request := request; call_options := options;
                    call_observed := true |}) as Hlast.
  { rewrite Hcalls. apply list_lookup_middle.
    unfold pending. by rewrite !length_fmap. }
  destruct (step_Settled w' customerId' rt1 (length (pending rt)) o _ Hlast)
    as (Hpage2 & Hdeps2 & _ & Hpending2 & _).
  change (page (step w' customerId' rt1 (Settled (length (pending rt)) o)).1
          = (settle o options (page rt1)).1) in Hpage2.
  cbv zeta. rewrite Hpage2, Hdeps2, Hpending2, Hq.
  assert (∀ st, settle o options st
                = (setWishlistLoading
                     (filter (λ id, id ≠ productId hit)
                        (st_wishlistLoading (page rt))) st,
                   (settle o options st).2)) as Hsettle.
  { intros st. destruct isFavourite.
    - unfold addItemToWishlist in E. simpl in E. destruct w; [|done].
      simpl in E. injection E as <- <-. by destruct o.
    - unfold removeItemFromWishlist in E. simpl in E.
      destruct w as [wl|]; [|done]. simpl in E.
      destruct (customerProductListItems wl) as [items|]; [|done].
      destruct (JS.find _ items); [|done].
      simpl in E. injection E as <- <-. by destruct o. }
  rewrite Hsettle. simpl. rewrite Hdeps.
  split; [done|]. split; [by rewrite delete_middle, app_nil_r|].
  split; [|done]. rewrite Hpage. destruct isFavourite.
  - unfold addItemToWishlist. by destruct (wishlist _).
  - unfold removeItemFromWishlist. simpl. destruct w as [wl|]; [|done].
    simpl. destruct (customerProductListItems wl) as [items|]; [|done].
    by destruct (JS.find _ items).
Qed.

(** X25. When the mutation issued by a toggle settles, with either outcome
    and whatever happened to the page since: if its call is still followed
    by its hook, the loading list becomes what it was when the toggle
    happened, without the product's id, so that ids added by later toggles
    are dropped and ids cleared since are put back; if a later call on the
    same hook took its place, the loading list stays as it is. *)
Theorem settlement_restores_captured w customerId rt hit (isFavourite : bool)
    options (w' : option Wishlist) (customerId' : string) (rt2 : Runtime)
    (j : nat) o (call : Call) :
  pending (step w customerId rt (FavouriteToggle hit isFavourite)).1
  = pending rt ++ [options] →
  inFlight rt2 !! j = Some call →
  call_options call = options →
  st_wishlistLoading (page (step w' customerId' rt2 (Settled j o)).1)
  = if call_observed call
    then filter (λ id, id ≠ productId hit) (st_wishlistLoading (page rt))
    else st_wishlistLoading (page rt2).
Proof.
  intros Hpending Hj Hoptions.
  destruct (step_FavouriteToggle w customerId rt hit isFavourite)
    as (_ & _ & Hstarted). cbv zeta in Hstarted.
  match type of Hstarted with
  | match ?s with _ => _ end => destruct s as [err|request options'] eqn:E
  end; destruct Hstarted as [Hq _]; rewrite Hq in Hpending.
  { by apply app_singleton_ne in Hpending. }
  apply (inj (app _)) in Hpending as [= ->].
  destruct (step_Settled w' customerId' rt2 j o call Hj) as (-> & _).
  rewrite Hoptions. destruct (call_observed call); [|done].
  destruct isFavourite.
  - unfold addItemToWishlist in E. simpl in E. destruct w; [|done].
    simpl in E. injection E as <- <-. by destruct o.
  - unfold removeItemFromWishlist in E. simpl in E.
    destruct w as [wl|]; [|done]. simpl in E.
    destruct (customerProductListItems wl) as [items|]; [|done].
    destruct (JS.find _ items); [|done].
    simpl in E. injection E as <- <-. by destruct o.
Qed.

(** X22. A toggle that routes to [addItemToWishlist] puts the product's id in the
    loading list. With a wishlist it sends one creation request, for this
    product in that list, with quantity 1, not public, priority 1 and type
    "product", and queues it; without a wishlist it rejects with a
    [TypeError], sends nothing and queues nothing, so nothing is left to
    clear the id. *)
Theorem addItemToWishlist_request w customerId rt hit :
  let next := step w customerId rt (FavouriteToggle hit true) in
  productId hit ∈ st_wishlistLoading (page next.1)
  ∧ match w with
    | Some wishlist =>
        next.2 = [send (createCustomerProductListItem customerId
                          (wishlist_id wishlist)
                          {| quantity := 1; public := false; priority := 1;
                             type := "product";
                             body_productId := productId hit |})]
        ∧ length (pending next.1) = S (length (pending rt))
    | None => next.2 = [reject JS.TypeError] ∧ pending next.1 = pending rt
    end.
Proof.
  cbv zeta. split.
  - simpl. unfold addItemToWishlist. simpl. destruct w; simpl; set_solver.
  - destruct (step_FavouriteToggle w customerId rt hit true)
      as (_ & _ & Hstarted). cbv zeta in Hstarted.
    match type of Hstarted with
    | match ?s with _ => _ end => destruct s as [err|request options] eqn:E
    end; unfold addItemToWishlist in E; simpl in E;
      destruct w as [wl|]; simplify_eq/=; destruct Hstarted as [Hpending Hout].
    + done.
    + split; [done|]. rewrite Hpending, length_app. simpl. lia.
Qed.

Lemma effectDeps_preserved w customerId rt (es : list Event) :
  Forall (λ e, is_commit e = false) es →
  effectDeps (run w customerId rt es).1 = effectDeps rt.
Proof.
  intros Hes. revert rt. induction Hes as [|e es He _ IH]; intros rt; [done|].
  simpl. destruct (step w customerId rt e) as [rt1 out1] eqn:E1.
  specialize (IH rt1). destruct (run w customerId rt1 es) as [rt2 out2].
  simpl in *. rewrite IH.
  change rt1 with (rt1, out1).1. rewrite <- E1.
  destruct e as [b| |hit isFavourite|i o]; [done|done| |].
  - by destruct (step_FavouriteToggle w customerId rt hit isFavourite)
      as (_ & -> & _).
  - destruct (inFlight rt !! i) as [call|] eqn:Hi;
      [|by rewrite step_Settled_none].
    by destruct (step_Settled w customerId rt i o call Hi) as (_ & -> & _).
Qed.

(** X23. Once a render with some [isRefetching] is committed, committing the same
    value again does nothing, neither a scroll nor a state change, whatever
    toggles, settlements and page changes happened in between: re-renders
    caused by the wishlist never re-run the effect. *)
Theorem commit_same_isRefetching w customerId rt (isRefetching : bool)
    (es : list Event) :
  Forall (λ e, is_commit e = false) es →
  let rt' :=
    (run w customerId (step w customerId rt (Commit isRefetching)).1 es).1 in
  step w customerId rt' (Commit isRefetching) = (rt', []).
Proof.
  intros Hes rt'.
  assert (effectDeps rt' = Some isRefetching) as Hdeps.
  { unfold rt'. rewrite effectDeps_preserved by done. simpl.
    by case_decide. }
  simpl. by rewrite decide_True.
Qed.

End loop_invariants.

(** ** Lookup failures that go unnoticed *)

(** X24. A category lookup that failed without a response (the request never got
    an answer) raises nothing: the page renders, with whatever category the
    hook still reports. *)
Theorem error_without_response_renders (MAX_CACHE_AGE : N) (i : Inputs)
    (e : ResponseError) :
  error (categoryQuery i) = Some e →
  response e = None →
  ∃ view,
    ProductList MAX_CACHE_AGE i = Rendered view
    ∧ view_category view = category (categoryQuery i)
    ∧ view_res view = responseHandling MAX_CACHE_AGE (res i).
Proof.
  intros He Hresponse. unfold ProductList, errorStatus.
  rewrite He. simpl. rewrite Hresponse. simpl. eauto.
Qed.

(** ** The properties above at concrete inputs *)

Lemma error_without_response_renders_witness :
  ∃ view,
    ProductList 900 Sample.offline_category_page = Rendered view
    ∧ view_category view = None
    ∧ view_res view = None.
Proof.
  exact (error_without_response_renders 900 Sample.offline_category_page
           {| response := None |} eq_refl eq_refl).
Defined.

Lemma productSearchParameters_category_witness :
  (∃ parameters,
     productSearchParameters (Some "mens") Sample.search_params
     = JS.Normal parameters
     ∧ parameters !! "refine"
       = Some (PList ["c_refinementColor=Blue"; "cgid=mens"])
     ∧ parameters !! "q" = Some (PStr "shirt"))
  ∧ productSearchParameters (Some "mens") ∅ = JS.Throw JS.TypeError.
Proof.
  assert ("mens" ≠ "") as Hcid by discriminate.
  split.
  - destruct (proj1 (productSearchParameters_category "mens" Sample.search_params
                       Hcid) ["c_refinementColor=Blue"] eq_refl)
      as (parameters & Hp & Hrefine & Hother).
    exists parameters. split; [exact Hp|]. split; [exact Hrefine|].
    rewrite Hother; [reflexivity|discriminate|discriminate].
  - apply (proj2 (productSearchParameters_category "mens" ∅ Hcid)).
    intros _refine. rewrite lookup_empty. discriminate.
Defined.

Lemma productSearchParameters_no_category_witness :
  ∃ parameters,
    productSearchParameters None Sample.search_params = JS.Normal parameters
    ∧ parameters !! "refine" = Some (PList ["c_refinementColor=Blue"])
    ∧ parameters !! "limit" = Some (PNum 25).
Proof.
  destruct (productSearchParameters_no_category None Sample.search_params eq_refl)
    as (parameters & Hp & Hrefine & Hother).
  exists parameters. split; [exact Hp|]. split; [exact Hrefine|].
  rewrite Hother; [reflexivity|discriminate].
Defined.

Lemma selectedSortingOptionLabel_spec_witness :
  selectedSortingOptionLabel (Some []) (Some "best-matches") = None
  ∧ ∃ options,
      Some Sample.sorting_options = Some options
      ∧ (Some "best-matches" = Some "price-high-to-low"
         ∨ head options
           = Some {| option_id := "best-matches"; option_label := "Best Matches" |}).
Proof.
  split.
  - apply (proj1 (selectedSortingOptionLabel_spec (Some []) (Some "best-matches"))).
    by right.
  - destruct (proj2 (selectedSortingOptionLabel_spec (Some Sample.sorting_options)
                       (Some "price-high-to-low"))
                {| option_id := "best-matches"; option_label := "Best Matches" |}
                eq_refl) as (options & Hoptions & _ & Hwhich).
    exists options. split; [exact Hoptions|].
    destruct Hwhich as [Hid|[Hhead _]]; [by left|by right].
Defined.

Lemma resetOffset_no_match_witness :
  resetOffset (chars "/search?q=offset&sort=best-matches")
  = chars "/search?q=offset&sort=best-matches".
Proof. apply resetOffset_no_match. reflexivity. Defined.

Lemma resetOffset_first_match_witness :
  resetOffset (chars "/category/mens?sort=price&Offset=25&limit=25&offset=50")
  = chars "/category/mens?sort=price&Offset=0&limit=25&offset=50".
Proof.
  apply (resetOffset_first_match (chars "/category/mens?sort=price&")
           (chars "Offset") "2"%char (chars "5&limit=25&offset=50"));
    reflexivity.
Defined.

Lemma filtersLoading_follows_isRefetching_witness :
  st_filtersLoading (page (step None "abk" mount (Commit true)).1) = true.
Proof.
  apply (filtersLoading_follows_isRefetching
           (step None "abk" mount (Commit true)).1).
  apply reachable_step, reachable_mount.
Defined.

Lemma settlement_effects_witness :
  let rt1 :=
    (step (Some Sample.saved) "abk" mount (FavouriteToggle Sample.shirt true)).1 in
  let rt2 :=
    (step (Some Sample.saved) "abk" rt1 (FavouriteToggle Sample.tie true)).1 in
  (step (Some Sample.saved) "abk" rt2 (Settled 0 Rejected)).2
  = [reject JS.Rejection]
  ∧ ∃ t,
      (step (Some Sample.saved) "abk" rt2 (Settled 1 Rejected)).2
      = [toast t; reject JS.Rejection]
      ∧ toast_status t = toast_error.
Proof.
  intros rt1 rt2.
  assert (reachable rt2) as Hreach
    by apply reachable_step, reachable_step, reachable_mount.
  split.
  - destruct (settlement_effects (Some Sample.saved) "abk" rt2 0 Rejected _
                Hreach eq_refl) as [[Hquiet _] _].
    exact Hquiet.
  - destruct (settlement_effects (Some Sample.saved) "abk" rt2 1 Rejected _
                Hreach eq_refl) as [Htoast _].
    exact Htoast.
Defined.

Lemma toggle_then_settle_witness :
  let rt1 :=
    (step (Some Sample.saved) "abk" mount (FavouriteToggle Sample.tie false)).1 in
  let rt2 := (step None "abk" rt1 (Settled 0 Fulfilled)).1 in
  st_wishlistLoading (page rt2) = [] ∧ pending rt2 = [].
Proof.
  intros rt1 rt2.
  destruct (toggle_then_settle (Some Sample.saved) "abk" mount Sample.tie false
              _ None "abk" Fulfilled eq_refl) as (Hloading & Hpending & _).
  split; [exact Hloading|exact Hpending].
Defined.

Lemma commit_same_isRefetching_witness :
  let rt :=
    (run (Some Sample.saved) "abk" mount
       [Commit true; PageChange; FavouriteToggle Sample.shirt true]).1 in
  step (Some Sample.saved) "abk" rt (Commit true) = (rt, []).
Proof.
  apply (commit_same_isRefetching (Some Sample.saved) "abk" mount true
           [PageChange; FavouriteToggle Sample.shirt true]).
  repeat constructor.
Defined.

Lemma settlement_restores_captured_witness :
  let rt1 :=
    (step (Some Sample.saved) "abk" mount (FavouriteToggle Sample.shirt true)).1 in
  let rt2 :=
    (run (Some Sample.saved) "abk" rt1
       [FavouriteToggle Sample.tie false; Settled 0 Fulfilled]).1 in
  let rt3 :=
    (step (Some Sample.saved) "abk" rt1 (FavouriteToggle Sample.tie true)).1 in
  st_wishlistLoading (page rt1) = [productId Sample.shirt]
  ∧ st_wishlistLoading (page rt2) = []
  ∧ st_wishlistLoading
      (page (step (Some Sample.saved) "abk" rt2 (Settled 0 Rejected)).1)
    = [productId Sample.shirt]
  ∧ st_wishlistLoading
      (page (step (Some Sample.saved) "abk" rt3 (Settled 0 Fulfilled)).1)
    = [productId Sample.shirt; productId Sample.tie].
Proof.
  intros rt1 rt2 rt3. split; [reflexivity|]. split; [reflexivity|]. split.
  - exact (settlement_restores_captured (Some Sample.saved) "abk" rt1
             Sample.tie false _ (Some Sample.saved) "abk" rt2 0 Rejected _
             eq_refl eq_refl eq_refl).
  - exact (settlement_restores_captured (Some Sample.saved) "abk" mount
             Sample.shirt true _ (Some Sample.saved) "abk" rt3 0 Fulfilled _
             eq_refl eq_refl eq_refl).
Defined.
